(** * notebooklm-py: cookie filtering, token scraping, source classification
      and the three-phase file upload

    A shallow embedding of [src/notebooklm/auth.py] and
    [src/notebooklm/_sources.py].  Python values are modelled as the code has
    them: a [str] is a sequence of Unicode code points, [bytes] a sequence of
    bytes, a [dict] an insertion-ordered association list, the loosely typed
    RPC replies a small tagged union.  Calls that leave the process (the RPC
    core, httpx, the file system) are answered by a [world]; what the program
    asked of it is recorded in a log of events. *)

From Stdlib Require Import String Ascii DecimalString.
From stdpp Require Import base tactics option list numbers.
From Equations Require Import Equations.

Local Open Scope N_scope.
Local Open Scope list_scope.

(** ** Python strings *)

(** A Python [str]: its code points, in order. *)
Definition pystr := list N.

Definition ch (a : ascii) : N := N_of_ascii a.
Arguments ch a%_char.

(** The [str] of an ASCII literal of the source. *)
Definition str (s : string) : pystr := map ch (list_ascii_of_string s).
Arguments str s%_string.

Definition str_eqb (s t : pystr) : bool := bool_decide (s = t).

(** [x in xs] for a tuple, list or set of strings. *)
Definition str_mem (s : pystr) (l : list pystr) : bool := existsb (str_eqb s) l.

(** [bool(s)]: a string is true when it is not empty. *)
Definition str_truthy (s : pystr) : bool :=
  match s with [] => false | _ :: _ => true end.

Fixpoint str_startswith (s p : pystr) : bool :=
  match p, s with
  | [], _ => true
  | c :: p', d :: s' => (c =? d) && str_startswith s' p'
  | _ :: _, [] => false
  end.

(** [s.endswith(suf)] *)
Definition str_endswith (s suf : pystr) : bool :=
  str_startswith (rev s) (rev suf).

(** [sub in s] *)
Fixpoint str_contains (sub s : pystr) : bool :=
  str_startswith s sub ||
  match s with
  | [] => false
  | _ :: s' => str_contains sub s'
  end.

(** [c in s] for a single character [c]. *)
Definition has_char (c : N) (s : pystr) : bool := existsb (N.eqb c) s.

(** [str.isspace] on one code point (CPython's [_PyUnicode_IsWhitespace]);
    the same class is what [\s] matches in a [str] pattern. *)
Definition isspace (c : N) : bool :=
  ((9 <=? c) && (c <=? 13)) || ((28 <=? c) && (c <=? 32)) ||
  (c =? 133) || (c =? 160) || (c =? 5760) ||
  ((8192 <=? c) && (c <=? 8202)) || (c =? 8232) || (c =? 8233) ||
  (c =? 8239) || (c =? 8287) || (c =? 12288).

Fixpoint lstrip_by (p : N -> bool) (s : pystr) : pystr :=
  match s with
  | [] => []
  | c :: s' => if p c then lstrip_by p s' else s
  end.

Definition rstrip_by (p : N -> bool) (s : pystr) : pystr :=
  rev (lstrip_by p (rev s)).

(** [s.strip()] *)
Definition str_strip (s : pystr) : pystr := rstrip_by isspace (lstrip_by isspace s).

(** [s.lstrip(chars)] *)
Definition str_lstrip (chars : pystr) (s : pystr) : pystr :=
  lstrip_by (fun c => has_char c chars) s.

(** [s.partition(c)] for a one-character separator: the text before the
    first [c], whether [c] was found, the text after it. *)
Fixpoint str_partition (c : N) (s : pystr) : pystr * bool * pystr :=
  match s with
  | [] => ([], false, [])
  | d :: s' =>
      if d =? c then ([], true, s')
      else let '(a, found, b) := str_partition c s' in (d :: a, found, b)
  end.

(** [s.rpartition(c)]: split at the last [c]; without one, everything is in
    the third component. *)
Definition str_rpartition (c : N) (s : pystr) : pystr * bool * pystr :=
  let '(a, found, b) := str_partition c (rev s) in
  if found then (rev b, true, rev a) else ([], false, s).

(** [s.split(c)] for a one-character separator. *)
Fixpoint str_split (c : N) (s : pystr) : list pystr :=
  match s with
  | [] => [[]]
  | d :: s' =>
      if d =? c then [] :: str_split c s'
      else match str_split c s' with
           | w :: ws => (d :: w) :: ws
           | [] => [[d]]
           end
  end.

(** [s.split(c, 1)] *)
Definition str_split1 (c : N) (s : pystr) : list pystr :=
  let '(a, found, b) := str_partition c s in
  if found then [a; b] else [a].

(** [s.replace(c, '')] *)
Definition remove_char (c : N) (s : pystr) : pystr :=
  filter (fun d => d ≠ c) s.

(** [s.replace(c, d)] for single characters. *)
Definition replace_char (c d : N) (s : pystr) : pystr :=
  map (fun x => if x =? c then d else x) s.

Definition is_ascii_upper (c : N) : bool := (65 <=? c) && (c <=? 90).
Definition is_ascii_lower (c : N) : bool := (97 <=? c) && (c <=? 122).
Definition is_ascii_digit (c : N) : bool := (48 <=? c) && (c <=? 57).
Definition is_ascii_alpha (c : N) : bool := is_ascii_upper c || is_ascii_lower c.
Definition isascii (c : N) : bool := c <? 128.

(** [str(n)] for a non-negative integer. *)
Definition str_of_N (n : N) : pystr :=
  str (NilEmpty.string_of_uint (N.to_uint n)).

(** ** What the embedding takes from the Python runtime

    Four library functions depend on the Unicode database or on the
    [ipaddress] module.  The program only passes their results on, so they
    are fields of a [runtime]; every function below that reaches one of them
    takes the runtime as its first argument, and every theorem holds for all
    runtimes. *)

Record runtime := {
  (** [s.lower()] for a string with a code point above 127 (the case
      mapping is not character-wise: final sigma). *)
  unicode_lower : pystr -> pystr;
  (** [urllib.parse.unquote(s)] for a string that contains ['%']. *)
  unquote_escapes : pystr -> pystr;
  (** [unicodedata.normalize('NFKC', s)] *)
  nfkc : pystr -> pystr;
  (** [urllib.parse._check_bracketed_netloc(netloc)]: [false] when it raises
      [ValueError]. *)
  check_bracketed_netloc : pystr -> bool
}.

Definition ascii_lower (c : N) : N :=
  if is_ascii_upper c then c + 32 else c.

(** [s.lower()] *)
Definition str_lower (rt : runtime) (s : pystr) : pystr :=
  if forallb isascii s then map ascii_lower s else unicode_lower rt s.

(** ** Exceptions

    [auth.py] raises the builtin [ValueError] for every authentication
    failure and tells the cases apart by the message only; the messages are
    kept as constructors, with the values interpolated into them. *)

Inductive value_error :=
  (** raised inside [urllib.parse.urlsplit] *)
  | InvalidURL
  (** "Missing required cookies: {missing}\nRun 'notebooklm login' to
      authenticate." *)
  | MissingRequiredCookies (missing : list pystr)
  (** "Missing required cookies for downloads: {missing}\n..." *)
  | MissingRequiredCookiesForDownloads (missing : list pystr)
  (** "Authentication expired or invalid. Run 'notebooklm login' to
      re-authenticate." *)
  | AuthenticationExpired
  (** "Authentication expired or invalid. Redirected to: {final_url}\n..." *)
  | AuthenticationExpiredRedirectedTo (final_url : pystr)
  (** "CSRF token not found in HTML. Final URL: {final_url}\nThis may
      indicate the page structure has changed." *)
  | CsrfTokenNotFound (final_url : pystr)
  (** "Session ID not found in HTML. Final URL: {final_url}\n..." *)
  | SessionIdNotFound (final_url : pystr).

(** Failures of looking up, opening, reading and decoding a file, other
    than the absence of the storage file.  [OSError] is also what [stat]
    raises, and [Path.exists] and [Path.is_file] let through, for a name
    that the operating system refuses to look up. *)
Inductive read_error := OSError | UnicodeDecodeError | JSONDecodeError.

(** Failures of an httpx request: the transport gave no response, or
    [raise_for_status] rejected the response's status code. *)
Inductive http_error :=
  | TransportError (detail : pystr)
  | HTTPStatusError (status_code : Z).

Inductive exn :=
  | ValueError (m : value_error)
  | FileNotFoundError (path : pystr)
  | ReadError (e : read_error)
  | HTTPError (e : http_error)
  (** Modelled from the spec: the remote-call boundary [self._core.rpc_call],
      which is not part of these modules, "may fail with a transport
      error"; this is that error. *)
  | RPCError (detail : pystr)
  (** [notebooklm._types.SourceAddError(source, message=...)] *)
  | SourceAddError (source message : pystr)
  (** Modelled from the spec: the error taxonomy names it for a failed
      delete; no module under verification defines, imports or raises it. *)
  | SourceDeleteError (detail : pystr).

Inductive result (A : Type) :=
  | Return (a : A)
  | Raise (e : exn).
Arguments Return {A} a.
Arguments Raise {A} e.

(** The error kinds of the specification, read off the exceptions of the
    code. *)
Definition is_MissingCookieError (e : exn) : bool :=
  match e with
  | ValueError (MissingRequiredCookies _)
  | ValueError (MissingRequiredCookiesForDownloads _) => true
  | _ => false
  end.

Definition is_AuthExpiredError (e : exn) : bool :=
  match e with
  | ValueError AuthenticationExpired
  | ValueError (AuthenticationExpiredRedirectedTo _) => true
  | _ => false
  end.

Definition is_TokenExtractionError (e : exn) : bool :=
  match e with
  | ValueError (CsrfTokenNotFound _)
  | ValueError (SessionIdNotFound _) => true
  | _ => false
  end.

Definition is_SourceAddError (e : exn) : bool :=
  match e with SourceAddError _ _ => true | _ => false end.

Definition is_SourceDeleteError (e : exn) : bool :=
  match e with SourceDeleteError _ => true | _ => false end.

(** ** [urllib.parse] (CPython 3.11), as far as [_sources.py] calls it *)

Module urllib.

Record ParseResult := {
  scheme : pystr;
  netloc : pystr;
  path : pystr;
  params : pystr;
  query : pystr;
  fragment : pystr
}.

Definition uses_params : list pystr :=
  [[]; str "ftp"; str "hdl"; str "prospero"; str "http"; str "imap";
   str "https"; str "shttp"; str "rtsp"; str "rtspu"; str "sip"; str "sips";
   str "mms"; str "sftp"; str "tel"].

Definition scheme_char (c : N) : bool :=
  is_ascii_alpha c || is_ascii_digit c || has_char c (str "+-.").

(** [_WHATWG_C0_CONTROL_OR_SPACE] *)
Definition c0_control_or_space (c : N) : bool := c <=? 32.

(** [url[:i].lower(), url[i+1:]] when [url] starts with a scheme and a
    colon. *)
Definition split_scheme (rt : runtime) (url : pystr) : pystr * pystr :=
  let '(before, found, after) := str_partition (ch ":") url in
  match before with
  | c0 :: _ =>
      if found && isascii c0 && is_ascii_alpha c0 && forallb scheme_char before
      then (str_lower rt before, after)
      else ([], url)
  | [] => ([], url)
  end.

Definition is_netloc_delim (c : N) : bool := has_char c (str "/?#").

Fixpoint take_until (p : N -> bool) (s : pystr) : pystr :=
  match s with
  | [] => []
  | c :: s' => if p c then [] else c :: take_until p s'
  end.

Fixpoint drop_until (p : N -> bool) (s : pystr) : pystr :=
  match s with
  | [] => []
  | c :: s' => if p c then s else drop_until p s'
  end.

(** [_splitnetloc(url, 2)] *)
Definition _splitnetloc2 (url : pystr) : pystr * pystr :=
  let rest := drop 2 url in
  (take_until is_netloc_delim rest, drop_until is_netloc_delim rest).

(** [_checknetloc(netloc)]: [false] when it raises [ValueError]. *)
Definition _checknetloc (rt : runtime) (netloc : pystr) : bool :=
  if negb (str_truthy netloc) || forallb isascii netloc then true
  else
    let n := remove_char (ch "?") (remove_char (ch "#")
               (remove_char (ch ":") (remove_char (ch "@") netloc))) in
    let netloc2 := nfkc rt n in
    if str_eqb n netloc2 then true
    else negb (existsb (fun c => has_char c netloc2) (str "/?#@:")).

(** [urlsplit(url)] with the default [scheme=''] and
    [allow_fragments=True]. *)
Definition urlsplit (rt : runtime) (url : pystr)
  : result (pystr * pystr * pystr * pystr * pystr) :=
  let url := lstrip_by c0_control_or_space url in
  let url := remove_char 10 (remove_char 13 (remove_char 9 url)) in
  let '(scheme, url) := split_scheme rt url in
  let '(netloc, url, ok) :=
    if str_eqb (take 2 url) (str "//") then
      let '(netloc, url) := _splitnetloc2 url in
      let open := has_char (ch "[") netloc in
      let close := has_char (ch "]") netloc in
      if (open && negb close) || (close && negb open) then (netloc, url, false)
      else if open && close then (netloc, url, check_bracketed_netloc rt netloc)
      else (netloc, url, true)
    else ([], url, true) in
  if negb ok then Raise (ValueError InvalidURL)
  else
    let '(url, fragment) :=
      if has_char (ch "#") url
      then let '(a, _, b) := str_partition (ch "#") url in (a, b)
      else (url, []) in
    let '(url, query) :=
      if has_char (ch "?") url
      then let '(a, _, b) := str_partition (ch "?") url in (a, b)
      else (url, []) in
    if _checknetloc rt netloc
    then Return (scheme, netloc, url, query, fragment)
    else Raise (ValueError InvalidURL).

Definition _splitparams (url : pystr) : pystr * pystr :=
  if has_char (ch "/") url then
    let '(head, _, tail) := str_rpartition (ch "/") url in
    let '(a, found, b) := str_partition (ch ";") tail in
    if found then (head ++ [ch "/"] ++ a, b) else (url, [])
  else
    let '(a, _, b) := str_partition (ch ";") url in (a, b).

Definition urlparse (rt : runtime) (url : pystr) : result ParseResult :=
  match urlsplit rt url with
  | Raise e => Raise e
  | Return (scheme, netloc, url, query, fragment) =>
      let '(url, params) :=
        if str_mem scheme uses_params && has_char (ch ";") url
        then _splitparams url else (url, []) in
      Return {| scheme := scheme; netloc := netloc; path := url;
                params := params; query := query; fragment := fragment |}
  end.

(** [_hostinfo[0]] *)
Definition _hostinfo_hostname (netloc : pystr) : pystr :=
  let '(_, _, hostinfo) := str_rpartition (ch "@") netloc in
  let '(_, have_open_br, bracketed) := str_partition (ch "[") hostinfo in
  if have_open_br
  then let '(hostname, _, _) := str_partition (ch "]") bracketed in hostname
  else let '(hostname, _, _) := str_partition (ch ":") hostinfo in hostname.

(** The [hostname] property. *)
Definition hostname (rt : runtime) (parsed : ParseResult) : option pystr :=
  let hostname := _hostinfo_hostname (netloc parsed) in
  if negb (str_truthy hostname) then None
  else
    let '(hostname, found, zone) := str_partition (ch "%") hostname in
    Some (str_lower rt hostname ++ (if found then [ch "%"] else []) ++ zone).

(** [unquote(s)] *)
Definition unquote (rt : runtime) (s : pystr) : pystr :=
  if negb (has_char (ch "%") s) then s else unquote_escapes rt s.

(** [parse_qsl(qs)] with its defaults. *)
Definition parse_qsl (rt : runtime) (qs : pystr) : list (pystr * pystr) :=
  flat_map (fun name_value =>
    if negb (str_truthy name_value) then []
    else match str_split1 (ch "=") name_value with
         | [n; v] =>
             if str_truthy v
             then [(unquote rt (replace_char (ch "+") (ch " ") n),
                    unquote rt (replace_char (ch "+") (ch " ") v))]
             else []
         | _ => []
         end)
    (str_split (ch "&") qs).

(** [parse_qs(qs).get(key, [])]: the values [parse_qs] collects under [key],
    in the order of the query string. *)
Definition parse_qs_get (rt : runtime) (qs key : pystr) : list pystr :=
  map snd (filter (fun nv => nv.1 = key) (parse_qsl rt qs)).

End urllib.

(** ** Loosely typed values: RPC parameters and replies *)

#[warnings="-register-all"]
Inductive pyval :=
  | PNone
  | PBool (b : bool)
  | PInt (z : Z)
  (** a [float], by the bit pattern of its IEEE-754 double *)
  | PFloat (bits : N)
  | PStr (s : pystr)
  | PList (items : list pyval)
  | PDict (items : list (pystr * pyval)).

(** [isinstance(v, list)] *)
Definition is_list (v : pyval) : bool :=
  match v with PList _ => true | _ => false end.

(** [isinstance(v, str)] *)
Definition is_str (v : pyval) : bool :=
  match v with PStr _ => true | _ => false end.

(** [bool(v)] *)
Definition py_truthy (v : pyval) : bool :=
  match v with
  | PNone => false
  | PBool b => b
  | PInt z => negb (z =? 0)%Z
  | PFloat bits => negb (bits =? 0) && negb (bits =? 2 ^ 63)
  | PStr s => str_truthy s
  | PList l => match l with [] => false | _ => true end
  | PDict d => match d with [] => false | _ => true end
  end.

(** A scalar of the reply: a value that is neither a sequence, nor a
    mapping, nor [None]. *)
Definition is_scalar (v : pyval) : bool :=
  match v with
  | PBool _ | PInt _ | PFloat _ | PStr _ => true
  | PNone | PList _ | PDict _ => false
  end.

(** The nested function [extract_id] of [_register_file_source]:
    "Recursively extract first string from nested lists."  Python's [None]
    is [PNone]. *)
Fixpoint extract_id (data : pyval) : pyval :=
  match data with
  | PStr _ => data
  | PList (first :: _) => extract_id first
  | _ => PNone
  end.

(** ** The source classifier of [_sources.py] *)

Definition youtube_domains : list pystr :=
  [str "youtube.com"; str "www.youtube.com"; str "m.youtube.com";
   str "music.youtube.com"; str "youtu.be"].

Definition path_prefixes : list pystr :=
  [str "shorts"; str "embed"; str "live"; str "v"].

(** [SourcesAPI._extract_video_id_from_parsed_url] *)
Definition _extract_video_id_from_parsed_url
    (rt : runtime) (parsed : urllib.ParseResult) (hostname : pystr)
  : option pystr :=
  if str_eqb hostname (str "youtu.be") then
    let path := str_lstrip (str "/") (urllib.path parsed) in
    if str_truthy path
    then Some (str_strip (hd [] (str_split (ch "/") path)))
    else None
  else
    let path_segments :=
      str_split (ch "/") (str_lstrip (str "/") (urllib.path parsed)) in
    let by_prefix :=
      match path_segments with
      | seg0 :: seg1 :: _ =>
          if str_mem (str_lower rt seg0) path_prefixes then Some seg1 else None
      | _ => None
      end in
    match by_prefix with
    | Some seg1 => Some (str_strip seg1)
    | None =>
        if str_truthy (urllib.query parsed) then
          match urllib.parse_qs_get rt (urllib.query parsed) (str "v") with
          | v0 :: _ => if str_truthy v0 then Some (str_strip v0) else None
          | [] => None
          end
        else None
    end.

Definition is_video_id_char (c : N) : bool :=
  is_ascii_alpha c || is_ascii_digit c || (c =? ch "_") || (c =? ch "-").

Fixpoint span_by (p : N -> bool) (s : pystr) : pystr * pystr :=
  match s with
  | [] => ([], [])
  | c :: s' =>
      if p c then let '(a, b) := span_by p s' in (c :: a, b) else ([], s)
  end.

(** [re.match(r"^[a-zA-Z0-9_-]+$", s)] as a truth value.  The class is
    matched greedily; [$] holds at the end of the string and also just
    before a line feed that ends the string.  Giving characters back cannot
    help: they are class characters, so [$] fails in front of them. *)
Definition re_match_video_id (s : pystr) : bool :=
  let '(run, rest) := span_by is_video_id_char s in
  str_truthy run && (str_eqb rest [] || str_eqb rest [10]).

(** [SourcesAPI._is_valid_video_id] *)
Definition _is_valid_video_id (video_id : pystr) : bool :=
  str_truthy video_id && re_match_video_id video_id.

(** The body of the [try] block of [SourcesAPI._parse_youtube_url]. *)
Definition _parse_youtube_url_try (rt : runtime) (url : pystr)
  : result (option pystr) :=
  match urllib.urlparse rt (str_strip url) with
  | Raise e => Raise e
  | Return parsed =>
      let hostname :=
        str_lower rt (default [] (urllib.hostname rt parsed)) in
      if negb (str_mem hostname youtube_domains) then Return None
      else
        match _extract_video_id_from_parsed_url rt parsed hostname with
        | Some video_id =>
            if str_truthy video_id && _is_valid_video_id video_id
            then Return (Some video_id)
            else Return None
        | None => Return None
        end
  end.

(** [SourcesAPI._parse_youtube_url]: the [try] block under its handler,
    [except (AttributeError, TypeError, ValueError)], which returns [None].
    Of the three classes only [ValueError] is among the exceptions of the
    embedding. *)
Definition _parse_youtube_url (rt : runtime) (url : pystr)
  : result (option pystr) :=
  match _parse_youtube_url_try rt url with
  | Raise (ValueError _) => Return None
  | r => r
  end.

(** [classify]: the tests at the head of [SourcesAPI.add], which decide
    between the three ways of adding a source.  [is_regular_file] is
    [Path(source).exists() and Path(source).is_file()], a test that can
    itself raise. *)
Inductive SourceKind :=
  | LocalFile (path : pystr)
  | VideoReference (rawUrl videoId : pystr)
  | GenericUrl (rawUrl : pystr).

Definition classify (rt : runtime) (is_regular_file : pystr -> result bool)
    (source : pystr) : result SourceKind :=
  match is_regular_file source with
  | Raise e => Raise e
  | Return true => Return (LocalFile source)
  | Return false =>
      match _parse_youtube_url rt source with
      | Raise e => Raise e
      | Return (Some video_id) =>
          if str_truthy video_id
          then Return (VideoReference source video_id)
          else Return (GenericUrl source)
      | Return None => Return (GenericUrl source)
      end
  end.

(** ** Dictionaries

    A Python [dict] keeps its keys in insertion order, and assigning to a
    key that is present keeps the key's place. *)

Section Dict.
Context {K V : Type} `{EqDecision K}.

Definition dict := list (K * V).

Fixpoint dict_set (d : dict) (k : K) (v : V) : dict :=
  match d with
  | [] => [(k, v)]
  | (k', v') :: d' =>
      if decide (k' = k) then (k', v) :: d' else (k', v') :: dict_set d' k v
  end.

Fixpoint dict_get (d : dict) (k : K) : option V :=
  match d with
  | [] => None
  | (k', v') :: d' => if decide (k' = k) then Some v' else dict_get d' k
  end.

Definition dict_keys (d : dict) : list K := map fst d.
End Dict.
Arguments dict K V : clear implicits.

(** ** [auth.py] *)

(** One record of the [cookies] array of the storage file.  A field that
    the record lacks is [None]; a field that is present holds a string, as
    in the storage-state files that the login command writes. *)
Record cookie := {
  cookie_domain : option pystr;
  cookie_name : option pystr;
  cookie_value : option pystr
}.

(** The parsed storage file: its [cookies] array, when it has one. *)
Record storage_state := { storage_cookies : option (list cookie) }.

Definition MINIMUM_REQUIRED_COOKIES : list pystr := [str "SID"].

Definition ALLOWED_COOKIE_DOMAINS : list pystr :=
  [str ".google.com"; str "notebooklm.google.com"; str ".googleusercontent.com"].

(** [MINIMUM_REQUIRED_COOKIES - names] *)
Definition missing_cookies (names : list pystr) : list pystr :=
  filter (fun n => negb (str_mem n names)) MINIMUM_REQUIRED_COOKIES.

(** The body of the loop of [extract_cookies_from_storage]. *)
Definition extract_cookie_step (cookies : dict pystr pystr) (c : cookie)
  : dict pystr pystr :=
  let domain := default [] (cookie_domain c) in
  if str_mem domain ALLOWED_COOKIE_DOMAINS then
    match cookie_name c with
    | Some name =>
        if str_truthy name
        then dict_set cookies name (default [] (cookie_value c))
        else cookies
    | None => cookies
    end
  else cookies.

Definition extract_cookies_from_storage (st : storage_state)
  : result (dict pystr pystr) :=
  let cookies := foldl extract_cookie_step [] (default [] (storage_cookies st)) in
  let missing := missing_cookies (dict_keys cookies) in
  match missing with
  | _ :: _ => Raise (ValueError (MissingRequiredCookies missing))
  | [] => Return cookies
  end.

(** Code point of the double quote. *)
Definition dquote : N := 34.

(** The group of non-quote characters and the closing quote of the token
    patterns: the longest run without a double quote, which must not be
    empty and must be followed by a double quote. *)
Definition match_quoted_value (s : pystr) : option pystr :=
  let '(run, rest) := span_by (fun c => negb (c =? dquote)) s in
  match run, rest with
  | _ :: _, _ :: _ => Some run
  | _, _ => None
  end.

(** The token pattern of [extract_csrf_from_html] and
    [extract_session_id_from_html] matched at the start of [s]: the quoted
    key, white space, a colon, white space, a double quote, the group, a
    double quote; the result is group 1.  Neither run of white space can
    give characters back with effect, since the character required after it
    is not white space. *)
Definition match_token_here (key s : pystr) : option pystr :=
  let quoted := [dquote] ++ key ++ [dquote] in
  if str_startswith s quoted then
    match lstrip_by isspace (drop (length quoted) s) with
    | c :: s1 =>
        if c =? ch ":" then
          match lstrip_by isspace s1 with
          | q :: s2 => if q =? dquote then match_quoted_value s2 else None
          | [] => None
          end
        else None
    | [] => None
    end
  else None.

(** [re.search(pattern, html)]: the match at the leftmost position that has
    one. *)
Fixpoint re_search_token (key html : pystr) : option pystr :=
  match match_token_here key html with
  | Some v => Some v
  | None =>
      match html with
      | [] => None
      | _ :: html' => re_search_token key html'
      end
  end.

Definition login_domain : pystr := str "accounts.google.com".

Definition extract_csrf_from_html (html final_url : pystr) : result pystr :=
  match re_search_token (str "SNlM0e") html with
  | Some token => Return token
  | None =>
      if str_contains login_domain final_url || str_contains login_domain html
      then Raise (ValueError AuthenticationExpired)
      else Raise (ValueError (CsrfTokenNotFound final_url))
  end.

Definition extract_session_id_from_html (html final_url : pystr)
  : result pystr :=
  match re_search_token (str "FdrFJe") html with
  | Some sid => Return sid
  | None =>
      if str_contains login_domain final_url || str_contains login_domain html
      then Raise (ValueError AuthenticationExpired)
      else Raise (ValueError (SessionIdNotFound final_url))
  end.

Definition allowed_suffixes : list pystr :=
  [str ".google.com"; str ".googleusercontent.com";
   str ".usercontent.google.com"].

Definition _is_allowed_cookie_domain (domain : pystr) : bool :=
  if str_mem domain ALLOWED_COOKIE_DOMAINS then true
  else existsb (fun suffix => str_eqb domain suffix || str_endswith domain suffix)
         allowed_suffixes.

(** The jar of an [httpx.Cookies]: [set(name, value, domain=domain)] files
    the cookie under its domain, the default path [/] and its name. *)
Definition cookie_jar := dict (pystr * pystr) pystr.

(** The body of the loop of [load_httpx_cookies]: the jar and the set
    [cookie_names]. *)
Definition load_cookie_step (acc : cookie_jar * list pystr) (c : cookie)
  : cookie_jar * list pystr :=
  let '(cookies, cookie_names) := acc in
  let domain := default [] (cookie_domain c) in
  let name := default [] (cookie_name c) in
  let value := default [] (cookie_value c) in
  if _is_allowed_cookie_domain domain && str_truthy name && str_truthy value
  then (dict_set cookies (domain, name) value, name :: cookie_names)
  else acc.

(** [load_httpx_cookies] from the point where the storage file is parsed. *)
Definition load_httpx_cookies_from (st : storage_state) : result cookie_jar :=
  let '(cookies, cookie_names) :=
    foldl load_cookie_step ([], []) (default [] (storage_cookies st)) in
  let missing := missing_cookies cookie_names in
  match missing with
  | _ :: _ => Raise (ValueError (MissingRequiredCookiesForDownloads missing))
  | [] => Return cookies
  end.

Record AuthTokens := {
  cookies : dict pystr pystr;
  csrf_token : pystr;
  session_id : pystr
}.

(** The [Cookie] header: the items [k=v] of the dictionary, in its order,
    joined by a semicolon and a space. *)
Fixpoint join_cookies (cookies : dict pystr pystr) : pystr :=
  match cookies with
  | [] => []
  | [(k, v)] => k ++ str "=" ++ v
  | (k, v) :: rest => k ++ str "=" ++ v ++ str "; " ++ join_cookies rest
  end.

Definition cookie_header (auth : AuthTokens) : pystr :=
  join_cookies (cookies auth).

(** ** The world outside the process

    Every remote call and HTTP request is an [event]; a run appends the
    events it causes to a log.  The [world] answers a request from the log
    so far and the request itself, so it may answer a repeated request
    differently each time. *)

(** The members of [notebooklm.rpc.RPCMethod] that [_sources.py] names;
    the enumeration itself is not part of these modules. *)
Inductive RPCMethod := LIST_SOURCES | DELETE_SOURCE | ADD_SOURCE | ADD_SOURCE_FILE.

(** The [content] of an httpx request. *)
Inductive content :=
  (** the text [json.dumps(v)] *)
  | JsonDumps (v : pyval)
  (** the chunks an iterator of [bytes] yields *)
  | Stream (chunks : list (list Byte.byte))
  (** an iterator that raises when it is asked for its first chunk *)
  | FailingStream.

Inductive event :=
  (** [core.rpc_call(method, params, source_path=..., allow_null=...)];
      [allow_null] is [None] where the call does not pass it *)
  | RpcCall (method : RPCMethod) (params : pyval) (source_path : pystr)
            (allow_null : option bool)
  (** [client.get(url, headers=..., follow_redirects=..., timeout=...)] *)
  | HttpGet (url : pystr) (headers : dict pystr pystr)
            (follow_redirects : bool) (timeout : Z)
  (** [client.post(url, headers=..., content=...)] on a client made with
      [timeout] *)
  | HttpPost (url : pystr) (headers : dict pystr pystr) (body : content)
             (timeout : Z).

Record response := {
  status_code : Z;
  (** [str(response.url)], the URL of the last response after redirects *)
  response_url : pystr;
  (** the headers, under their lower-case names *)
  response_headers : dict pystr pystr;
  response_text : pystr
}.

(** Modelled from the spec: [rpc_call], the remote-call boundary, gives back
    "a loosely structured reply or an error". *)
Inductive rpc_outcome := RpcReply (v : pyval) | RpcRaises (detail : pystr).
Inductive http_outcome := HttpResponse (r : response) | HttpRaises (detail : pystr).

(** What a path names.  [st_size] is the size [stat] reports; [content] is
    what [open] and [read] deliver, [None] when they raise.  The two are
    independent of each other: for a file of procfs, [stat] reports the
    size 0 and a read delivers the text. *)
Inductive node :=
  | Directory (st_size : N)
  | RegularFile (st_size : N) (content : option (list Byte.byte)).

Definition st_size_of (n : node) : N :=
  match n with
  | Directory size => size
  | RegularFile size _ => size
  end.

(** What [os.stat] answers for a path. *)
Inductive lookup :=
  | Found (n : node)
  (** the errors that pathlib takes for absence: ENOENT, ENOTDIR, EBADF and
      ELOOP, and the [ValueError] of a name with a null character *)
  | Missing
  (** every other [OSError], such as ENAMETOOLONG for a name longer than
      the system allows and EACCES for a directory that may not be
      searched *)
  | Refused.

Record world := {
  (** [Path.home()] *)
  home : pystr;
  (** the answer of [os.stat] for a path *)
  fs : pystr -> lookup;
  (** [json.loads] of the decoded text of a storage file, for the files
      whose text is no JSON or is the JSON of a storage state *)
  loads_storage_state : list Byte.byte -> read_error + storage_state;
  rpc : list event -> event -> rpc_outcome;
  http : list event -> event -> http_outcome
}.

(** [Path(p).exists()] and [Path(p).is_file()] of Python 3.11: both call
    [stat], answer [False] for the errors that stand for absence, and let
    every other [OSError] through. *)
Definition path_exists (w : world) (p : pystr) : result bool :=
  match fs w p with
  | Found _ => Return true
  | Missing => Return false
  | Refused => Raise (ReadError OSError)
  end.

Definition path_is_file (w : world) (p : pystr) : result bool :=
  match fs w p with
  | Found (RegularFile _ _) => Return true
  | Found (Directory _) => Return false
  | Missing => Return false
  | Refused => Raise (ReadError OSError)
  end.

(** [Path(p).exists() and Path(p).is_file()]: the second test is made only
    when the first answers [True]. *)
Definition is_regular_file (w : world) (p : pystr) : result bool :=
  match path_exists w p with
  | Return true => path_is_file w p
  | other => other
  end.

(** [Path(p).stat()] *)
Definition path_stat (w : world) (p : pystr) : result node :=
  match fs w p with
  | Found n => Return n
  | Missing | Refused => Raise (ReadError OSError)
  end.

(** [open(p, "rb")] and the reads up to the end of the file. *)
Definition read_bytes (w : world) (p : pystr) : result (list Byte.byte) :=
  match fs w p with
  | Found (RegularFile _ (Some data)) => Return data
  | _ => Raise (ReadError OSError)
  end.

(** The components of a POSIX path: empty ones and [.] are dropped. *)
Definition path_parts (p : pystr) : list pystr :=
  filter (fun part => negb (str_eqb part []) && negb (str_eqb part (str ".")))
         (str_split (ch "/") p).

(** [Path(p).name] *)
Definition path_name (p : pystr) : pystr := List.last (path_parts p) [].

(** [str(Path(p))] *)
Definition path_str (p : pystr) : pystr :=
  let root :=
    if str_startswith p (str "///") then str "/"
    else if str_startswith p (str "//") then str "//"
    else if str_startswith p (str "/") then str "/"
    else [] in
  let body :=
    (fix join (parts : list pystr) : pystr :=
       match parts with
       | [] => []
       | [x] => x
       | x :: rest => x ++ str "/" ++ join rest
       end) (path_parts p) in
  match root, body with
  | [], [] => str "."
  | _, _ => root ++ body
  end.

Definition inspect {A} (a : A) : {b | a = b} := exist _ a eq_refl.

(** ** Runs: the log of events and an exception or a value *)

Definition M (A : Type) : Type := list event -> list event * result A.

Definition ret {A} (a : A) : M A := fun log => (log, Return a).
Definition raise {A} (e : exn) : M A := fun log => (log, Raise e).
Definition bind {A B} (m : M A) (k : A -> M B) : M B := fun log =>
  match m log with
  | (log', Return a) => k a log'
  | (log', Raise e) => (log', Raise e)
  end.
Definition lift {A} (r : result A) : M A := fun log => (log, r).

Notation "'do' x <- m ; k" := (bind m (fun x => k))
  (at level 10, x name, m at level 100, k at level 200,
   format "'[v' 'do'  x  <-  m ; '/' k ']'").
Notation "'do_' m ; k" := (bind m (fun _ => k))
  (at level 10, m at level 100, k at level 200,
   format "'[v' 'do_'  m ; '/' k ']'").

(** The events of a run started with an empty log, and its outcome. *)
Definition events {A} (m : M A) : list event := (m []).1.
Definition outcome {A} (m : M A) : result A := (m []).2.

(** [await self._core.rpc_call(...)] *)
Definition rpc_call (w : world) (method : RPCMethod) (params : pyval)
    (source_path : pystr) (allow_null : option bool) : M pyval := fun log =>
  let ev := RpcCall method params source_path allow_null in
  (log ++ [ev],
   match rpc w log ev with
   | RpcReply v => Return v
   | RpcRaises detail => Raise (RPCError detail)
   end).

(** An httpx request: the response, or the transport's exception. *)
Definition http_request (w : world) (ev : event) : M response := fun log =>
  (log ++ [ev],
   match http w log ev with
   | HttpResponse r => Return r
   | HttpRaises detail => Raise (HTTPError (TransportError detail))
   end).

(** [response.is_success] *)
Definition is_success (r : response) : bool :=
  ((200 <=? status_code r) && (status_code r <=? 299))%Z.

(** [response.raise_for_status()]: every status outside 200..299 raises,
    as in the current httpx. *)
Definition raise_for_status (r : response) : M unit :=
  if is_success r then ret tt
  else raise (HTTPError (HTTPStatusError (status_code r))).

(** ** [auth.py], the part that reads files and the network *)

Definition DEFAULT_STORAGE_PATH (w : world) : pystr :=
  home w ++ str "/.notebooklm/storage_state.json".

(** The common head of [load_auth_from_storage] and [load_httpx_cookies]:
    the existence check, [read_text] and [json.loads]. *)
Definition read_storage_state (w : world) (path : option pystr)
  : result storage_state :=
  let storage_path := default (DEFAULT_STORAGE_PATH w) path in
  match path_exists w storage_path with
  | Raise e => Raise e
  | Return false => Raise (FileNotFoundError storage_path)
  | Return true =>
      match read_bytes w storage_path with
      | Raise e => Raise e
      | Return data =>
          match loads_storage_state w data with
          | inl e => Raise (ReadError e)
          | inr st => Return st
          end
      end
  end.

Definition load_auth_from_storage (w : world) (path : option pystr)
  : result (dict pystr pystr) :=
  match read_storage_state w path with
  | Raise e => Raise e
  | Return st => extract_cookies_from_storage st
  end.

Definition load_httpx_cookies (w : world) (path : option pystr)
  : result cookie_jar :=
  match read_storage_state w path with
  | Raise e => Raise e
  | Return st => load_httpx_cookies_from st
  end.

Definition homepage : pystr := str "https://notebooklm.google.com/".

Definition fetch_tokens (w : world) (cookies : dict pystr pystr)
  : M (pystr * pystr) :=
  let cookie_header := join_cookies cookies in
  do response <- http_request w
      (HttpGet homepage [(str "Cookie", cookie_header)] true 30);
  do_ raise_for_status response;
  let final_url := response_url response in
  if str_contains login_domain final_url
  then raise (ValueError (AuthenticationExpiredRedirectedTo final_url))
  else
    do csrf <- lift (extract_csrf_from_html (response_text response) final_url);
    do session_id <-
      lift (extract_session_id_from_html (response_text response) final_url);
    ret (csrf, session_id).

(** [AuthTokens.from_storage] *)
Definition from_storage (w : world) (path : option pystr) : M AuthTokens :=
  do cookies <- lift (load_auth_from_storage w path);
  do tokens <- fetch_tokens w cookies;
  ret {| cookies := cookies; csrf_token := tokens.1; session_id := tokens.2 |}.

(** ** [_sources.py]: [SourcesAPI] *)

Definition UPLOAD_URL : pystr :=
  str "https://upload.notebooklm.google.com/upload/notebooklm/v1/sources".

Definition notebook_path (notebook_id : pystr) : pystr :=
  str "/notebook/" ++ notebook_id.

(** The last element of every parameter list:
    [[1, None, None, None, None, None, None, None, None, None, [1]]]. *)
Definition trailer : pyval :=
  PList [PInt 1; PNone; PNone; PNone; PNone; PNone; PNone; PNone; PNone;
         PNone; PList [PInt 1]].

(** The generator [file_stream] of [_upload_file_streaming], for a read
    size [n]: [while chunk := f.read(n): yield chunk] over a file that
    holds [data]. *)
Equations? read_chunks (n : nat) (data : list Byte.byte)
  : list (list Byte.byte) by wf (length data) lt :=
  read_chunks n data with inspect (take n data) := {
    | exist _ [] _ => [];
    | exist _ (b :: chunk) _ => (b :: chunk) :: read_chunks n (drop n data) }.
Proof.
  destruct n as [|n]; [done|]. destruct data as [|b' data]; [done|].
  rewrite length_drop. simpl. lia.
Defined.

(** 64KB chunks *)
Definition CHUNK_SIZE : nat := N.to_nat 65536.

Definition file_stream (data : list Byte.byte) : list (list Byte.byte) :=
  read_chunks CHUNK_SIZE data.

Section SourcesAPI.
(** [self._core]: the world behind [rpc_call], and [self._core.auth]. *)
Context (rt : runtime) (w : world) (auth : AuthTokens).

Definition list_sources (notebook_id : pystr) : M pyval :=
  rpc_call w LIST_SOURCES (PList [PStr notebook_id])
           (notebook_path notebook_id) None.

Definition delete (notebook_id source_id : pystr) : M unit :=
  do_ rpc_call w DELETE_SOURCE (PList [PStr notebook_id; PStr source_id])
        (notebook_path notebook_id) None;
  ret tt.

Definition _add_youtube_source (notebook_id url : pystr) : M pyval :=
  let params :=
    PList [PList [PList [PNone; PNone; PNone; PNone; PNone; PNone; PNone;
                         PList [PStr url]; PNone; PNone; PInt 1]];
           PStr notebook_id; PList [PInt 2]; trailer] in
  rpc_call w ADD_SOURCE params (notebook_path notebook_id) (Some true).

Definition _add_url_source (notebook_id url : pystr) : M pyval :=
  let params :=
    PList [PList [PList [PNone; PNone; PList [PStr url]; PNone; PNone;
                         PNone; PNone; PNone; PNone; PNone; PInt 1]];
           PStr notebook_id; PList [PInt 2]; trailer] in
  rpc_call w ADD_SOURCE params (notebook_path notebook_id) (Some true).

Definition registration_failed (filename : pystr) : exn :=
  SourceAddError filename
    (str "Failed to get SOURCE_ID from registration response").

Definition _register_file_source (notebook_id filename : pystr) : M pystr :=
  let params :=
    PList [PList [PList [PStr filename]];
           PStr notebook_id; PList [PInt 2]; trailer] in
  do result <- rpc_call w ADD_SOURCE_FILE params (notebook_path notebook_id)
                 (Some true);
  if py_truthy result && is_list result then
    match extract_id result with
    | PStr source_id =>
        if str_truthy source_id then ret source_id
        else raise (registration_failed filename)
    | _ => raise (registration_failed filename)
    end
  else raise (registration_failed filename).

Definition start_headers (file_size : N) : dict pystr pystr :=
  [(str "Accept", str "*/*");
   (str "Content-Type", str "application/x-www-form-urlencoded;charset=UTF-8");
   (str "Cookie", cookie_header auth);
   (str "Origin", str "https://notebooklm.google.com");
   (str "Referer", str "https://notebooklm.google.com/");
   (str "x-goog-authuser", str "0");
   (str "x-goog-upload-command", str "start");
   (str "x-goog-upload-header-content-length", str_of_N file_size);
   (str "x-goog-upload-protocol", str "resumable")].

Definition _start_resumable_upload
    (notebook_id filename : pystr) (file_size : N) (source_id : pystr)
  : M pystr :=
  let url := UPLOAD_URL ++ str "?authuser=0" in
  let body :=
    JsonDumps (PDict [(str "PROJECT_ID", PStr notebook_id);
                      (str "SOURCE_NAME", PStr filename);
                      (str "SOURCE_ID", PStr source_id)]) in
  do response <- http_request w (HttpPost url (start_headers file_size) body 60);
  do_ raise_for_status response;
  match dict_get (response_headers response) (str "x-goog-upload-url") with
  | Some upload_url =>
      if str_truthy upload_url then ret upload_url
      else raise (SourceAddError filename
                    (str "Failed to get upload URL from response headers"))
  | None =>
      raise (SourceAddError filename
               (str "Failed to get upload URL from response headers"))
  end.

Definition upload_headers : dict pystr pystr :=
  [(str "Accept", str "*/*");
   (str "Content-Type", str "application/x-www-form-urlencoded;charset=utf-8");
   (str "Cookie", cookie_header auth);
   (str "Origin", str "https://notebooklm.google.com");
   (str "Referer", str "https://notebooklm.google.com/");
   (str "x-goog-authuser", str "0");
   (str "x-goog-upload-command", str "upload, finalize");
   (str "x-goog-upload-offset", str "0")].

(** The generator opens the file when httpx asks for the first chunk of
    the body, which is after the request is under way: a file that cannot
    be opened ends the POST with the error of [open], unless the transport
    failed before it asked for the body. *)
Definition _upload_file_streaming (upload_url file_path : pystr) : M unit :=
  match read_bytes w file_path with
  | Return data =>
      do response <- http_request w
          (HttpPost upload_url upload_headers (Stream (file_stream data)) 300);
      do_ raise_for_status response;
      ret tt
  | Raise e => fun log =>
      let ev := HttpPost upload_url upload_headers FailingStream 300 in
      (log ++ [ev],
       match http w log ev with
       | HttpRaises detail => Raise (HTTPError (TransportError detail))
       | HttpResponse _ => Raise e
       end)
  end.

Definition _add_file_source (notebook_id file_path : pystr) : M pystr :=
  do found <- lift (path_exists w file_path);
  if negb found
  then raise (SourceAddError (path_str file_path) (str "File not found"))
  else
    do st <- lift (path_stat w file_path);
    let file_size := st_size_of st in
    let filename := path_name file_path in
    do source_id <- _register_file_source notebook_id filename;
    do upload_url <-
      _start_resumable_upload notebook_id filename file_size source_id;
    do_ _upload_file_streaming upload_url file_path;
    ret source_id.

Definition add (notebook_id source : pystr) : M pystr :=
  do is_file <- lift (is_regular_file w source);
  if is_file then
    _add_file_source notebook_id source
  else
    do video_id <- lift (_parse_youtube_url rt source);
    if str_truthy (default [] video_id) then
      do result <- _add_youtube_source notebook_id source;
      (* [if result and isinstance(result, list): pass] *)
      ret (str "youtube_source_added")
    else
      do result <- _add_url_source notebook_id source;
      if negb (py_truthy result) || negb (is_list result)
      then raise (SourceAddError source (str "Failed to add URL source"))
      else ret (str "url_source_added").
End SourcesAPI.

(** * Vocabulary of the statements

    Requests, predicates and example worlds that the theorems below speak
    about. *)

(** [k] lists, each the single element of the next, around [v]. *)
Fixpoint nest (k : nat) (v : pyval) : pyval :=
  match k with
  | O => v
  | S k' => PList [nest k' v]
  end.

(** What it means for the token pattern of [key] to match at the start of
    [s] with group [value]: the quoted key, white space, a colon, white
    space, and the quoted, non-empty, quote-free [value]. *)
Definition token_at (key s value : pystr) : Prop :=
  exists ws1 ws2 post,
    s = ([dquote] ++ key ++ [dquote]) ++ ws1 ++ ch ":" :: ws2 ++
        dquote :: value ++ dquote :: post /\
    forallb isspace ws1 = true /\ forallb isspace ws2 = true /\
    value <> [] /\ dquote ∉ value.

(** The pattern matches nowhere in [html]. *)
Definition token_absent (key html : pystr) : Prop :=
  forall pre s value, html = pre ++ s -> ~ token_at key s value.

(** [sub in s] *)
Definition occurs_in (sub s : pystr) : Prop :=
  exists pre post, s = pre ++ sub ++ post.

(** A run that ends in an exception of the given kind. *)
Definition raises {A} (kind : exn -> bool) (r : result A) : Prop :=
  exists e, r = Raise e /\ kind e = true.

(** A runtime for closed examples.  Its Unicode functions are the identity
    and its bracket check accepts; on input that is ASCII and has neither a
    percent sign nor a bracket, no function of the embedding consults
    them. *)
Definition ascii_runtime : runtime := {|
  unicode_lower := id;
  unquote_escapes := id;
  nfkc := id;
  check_bracketed_netloc := fun _ => true
|}.

(** The host of a URL, by [urlparse(url).hostname]. *)
Definition url_hostname (rt : runtime) (url : pystr) : option pystr :=
  match urllib.urlparse rt url with
  | Return parsed => urllib.hostname rt parsed
  | Raise _ => None
  end.

(** The landing-page request of [fetch_tokens]. *)
Definition landing_request (cookies : dict pystr pystr) : event :=
  HttpGet homepage [(str "Cookie", join_cookies cookies)] true 30.

(** A world whose storage file holds an [SID] cookie and whose landing page
    answers from the login domain with the given status. *)
Definition login_world (status : Z) : world := {|
  home := str "/home/user";
  fs := fun p =>
    if str_eqb p (str "/home/user/.notebooklm/storage_state.json")
    then Found (RegularFile 0 (Some [])) else Missing;
  loads_storage_state := fun _ =>
    inr {| storage_cookies :=
             Some [{| cookie_domain := Some (str ".google.com");
                      cookie_name := Some (str "SID");
                      cookie_value := Some (str "xyz") |}] |};
  rpc := fun _ _ => RpcRaises (str "unreachable");
  http := fun _ _ =>
    HttpResponse {| status_code := status;
                    response_url := str "https://accounts.google.com/v3/signin";
                    response_headers := [];
                    response_text := str "<html>Sign in</html>" |}
|}.

(** The remote call of [delete]. *)
Definition delete_request (notebook_id source_id : pystr) : event :=
  RpcCall DELETE_SOURCE (PList [PStr notebook_id; PStr source_id])
          (notebook_path notebook_id) None.

(** The remote call of [_add_url_source]. *)
Definition add_url_request (notebook_id url : pystr) : event :=
  RpcCall ADD_SOURCE
    (PList [PList [PList [PNone; PNone; PList [PStr url]; PNone; PNone;
                          PNone; PNone; PNone; PNone; PNone; PInt 1]];
            PStr notebook_id; PList [PInt 2]; trailer])
    (notebook_path notebook_id) (Some true).

(** The remote call of [_add_youtube_source]. *)
Definition add_youtube_request (notebook_id url : pystr) : event :=
  RpcCall ADD_SOURCE
    (PList [PList [PList [PNone; PNone; PNone; PNone; PNone; PNone; PNone;
                          PList [PStr url]; PNone; PNone; PInt 1]];
            PStr notebook_id; PList [PInt 2]; trailer])
    (notebook_path notebook_id) (Some true).

(** A well-formed reply of an add: a sequence that is not empty. *)
Definition is_nonempty_list (v : pyval) : bool :=
  match v with PList (_ :: _) => true | _ => false end.

(** A world without files in which every remote call fails. *)
Definition offline_world : world := {|
  home := str "/home/user";
  fs := fun _ => Missing;
  loads_storage_state := fun _ => inl JSONDecodeError;
  rpc := fun _ _ => RpcRaises (str "connection reset");
  http := fun _ _ => HttpRaises (str "connection reset")
|}.

Definition no_auth : AuthTokens :=
  {| cookies := []; csrf_token := []; session_id := [] |}.

(** The registration call of [_register_file_source]. *)
Definition register_request (notebook_id filename : pystr) : event :=
  RpcCall ADD_SOURCE_FILE
    (PList [PList [PList [PStr filename]];
            PStr notebook_id; PList [PInt 2]; trailer])
    (notebook_path notebook_id) (Some true).

(** The session-start request of [_start_resumable_upload]. *)
Definition negotiate_request (auth : AuthTokens)
    (notebook_id filename : pystr) (file_size : N) (source_id : pystr) : event :=
  HttpPost (UPLOAD_URL ++ str "?authuser=0") (start_headers auth file_size)
    (JsonDumps (PDict [(str "PROJECT_ID", PStr notebook_id);
                       (str "SOURCE_NAME", PStr filename);
                       (str "SOURCE_ID", PStr source_id)]))
    60.

(** The body of the transfer request for a file that delivers [bytes]
    when it is read, or cannot be read. *)
Definition transfer_body (bytes : option (list Byte.byte)) : content :=
  match bytes with
  | Some data => Stream (file_stream data)
  | None => FailingStream
  end.


(** The source identifier [_register_file_source] takes from a reply. *)
Definition registered_id (reply : pyval) : option pystr :=
  if py_truthy reply && is_list reply then
    match extract_id reply with
    | PStr source_id => if str_truthy source_id then Some source_id else None
    | _ => None
    end
  else None.

(** The session URL [_start_resumable_upload] takes from a response that
    passed [raise_for_status]. *)
Definition negotiated_url (r : response) : option pystr :=
  match dict_get (response_headers r) (str "x-goog-upload-url") with
  | Some upload_url => if str_truthy upload_url then Some upload_url else None
  | None => None
  end.

(** A world with one file of two bytes, in which every phase of an upload
    succeeds: the registration replies with an identifier under four
    lists, the session start answers with an upload URL. *)
Definition upload_world : world := {|
  home := str "/home/user";
  fs := fun p =>
    if str_eqb p (str "/tmp/notes.txt")
    then Found (RegularFile 2 (Some [Byte.x68; Byte.x69])) else Missing;
  loads_storage_state := fun _ => inl JSONDecodeError;
  rpc := fun _ _ => RpcReply (PList [PList [PList [PList [PStr (str "src-7")]]]]);
  http := fun _ ev =>
    match ev with
    | HttpPost _ _ (JsonDumps _) _ =>
        HttpResponse {| status_code := 200;
                        response_url := UPLOAD_URL ++ str "?authuser=0";
                        response_headers :=
                          [(str "x-goog-upload-url",
                            str "https://upload.notebooklm.google.com/session/1")];
                        response_text := [] |}
    | _ =>
        HttpResponse {| status_code := 200; response_url := [];
                        response_headers := []; response_text := [] |}
    end
|}.

(** The value of the last item of [items] filed under [k]. *)
Definition last_value {K V} `{EqDecision K} (items : list (K * V)) (k : K)
  : option V :=
  foldl (fun acc item => if decide (item.1 = k) then Some item.2 else acc)
        None items.

(** Assigning the items to a dictionary, one after the other. *)
Definition dict_update {K V} `{EqDecision K} (d : dict K V)
    (items : list (K * V)) : dict K V :=
  foldl (fun d item => dict_set d item.1 item.2) d items.

(** The fields of a cookie record, as the loops read them. *)
Definition domain_of (c : cookie) : pystr := default [] (cookie_domain c).
Definition name_of (c : cookie) : pystr := default [] (cookie_name c).
Definition value_of (c : cookie) : pystr := default [] (cookie_value c).

(** The domain is a member of the allow-list. *)
Definition exact_domain (d : pystr) : Prop := d ∈ ALLOWED_COOKIE_DOMAINS.

(** The domain ends with a member of the allow-list that starts with a
    dot. *)
Definition dot_suffix_domain (d : pystr) : Prop :=
  exists a rest pre, a ∈ ALLOWED_COOKIE_DOMAINS /\ a = ch "." :: rest /\ d = pre ++ a.

(** The entries [extract_cookies_from_storage] retains. *)
Definition rpc_keeps (c : cookie) : bool :=
  str_mem (domain_of c) ALLOWED_COOKIE_DOMAINS && str_truthy (name_of c).

(** The entries [load_httpx_cookies] retains. *)
Definition download_keeps (c : cookie) : bool :=
  _is_allowed_cookie_domain (domain_of c) && str_truthy (name_of c)
  && str_truthy (value_of c).

Definition rpc_items (l : list cookie) : list (pystr * pystr) :=
  map (fun c => (name_of c, value_of c)) (filter rpc_keeps l).

Definition download_items (l : list cookie) : list (pystr * pystr * pystr) :=
  map (fun c => ((domain_of c, name_of c), value_of c)) (filter download_keeps l).

Definition cookie_list (st : storage_state) : list cookie :=
  default [] (storage_cookies st).

Definition mk_cookie (domain name value : string) : cookie :=
  {| cookie_domain := Some (str domain); cookie_name := Some (str name);
     cookie_value := Some (str value) |}.

(** The hosts of the video service other than the short-link host. *)
Definition youtube_com_hosts : list pystr :=
  [str "youtube.com"; str "www.youtube.com"; str "m.youtube.com";
   str "music.youtube.com"].

(** The keys of a list, each at its first occurrence. *)
Definition first_occurrences {K} `{EqDecision K} (keys : list K) : list K :=
  foldl (fun acc k => if decide (k ∈ acc) then acc else acc ++ [k]) [] keys.

(** The token pattern of [key] matches first at the end of [pre], with
    group [value]. *)
Definition first_token (key html pre value : pystr) : Prop :=
  exists s, html = pre ++ s /\ token_at key s value /\
    forall pre' s' value', html = pre' ++ s' -> (length pre' < length pre)%nat ->
                           ~ token_at key s' value'.

(** A string between double quotes. *)
Definition quoted (s : pystr) : pystr := [dquote] ++ s ++ [dquote].

(** A world in which acquisition succeeds: the storage file holds an [SID]
    cookie, and the landing page answers with status 200 and both
    tokens. *)
Definition signed_in_world : world := {|
  home := str "/home/user";
  fs := fun p =>
    if str_eqb p (str "/home/user/.notebooklm/storage_state.json")
    then Found (RegularFile 0 (Some [])) else Missing;
  loads_storage_state := fun _ =>
    inr {| storage_cookies := Some [mk_cookie ".google.com" "SID" "xyz"] |};
  rpc := fun _ _ => RpcRaises (str "unreachable");
  http := fun _ _ =>
    HttpResponse {| status_code := 200;
                    response_url := homepage;
                    response_headers := [];
                    response_text :=
                      str "<script>{" ++ quoted (str "SNlM0e") ++ str ":"
                      ++ quoted (str "TOKEN1") ++ str ","
                      ++ quoted (str "FdrFJe") ++ str ": "
                      ++ quoted (str "TOKEN2") ++ str "}</script>" |}
|}.



(** The world of a successful upload, with a file of procfs in place of the
    file of two bytes: [stat] reports the size 0 for it, and reading it
    delivers two bytes. *)
Definition procfs_world : world := {|
  home := home upload_world;
  fs := fun p =>
    if str_eqb p (str "/proc/version")
    then Found (RegularFile 0 (Some [Byte.x68; Byte.x69])) else Missing;
  loads_storage_state := loads_storage_state upload_world;
  rpc := rpc upload_world;
  http := http upload_world
|}.



(** * Properties *)

(** ** The identifier extractor *)

Lemma extract_id_nest (k : nat) (s : pystr) :
  extract_id (nest k (PStr s)) = PStr s.
Proof. induction k as [|k IH]; simpl; [reflexivity | exact IH]. Qed.

Lemma extract_id_str_or_none (v : pyval) :
  extract_id v = PNone \/ exists s, extract_id v = PStr s.
Proof.
  revert v. fix IH 1. intros [ | b | z | bits | s | items | items ]; simpl;
    try (left; reflexivity).
  - right. exists s. reflexivity.
  - destruct items as [|first rest]; [left; reflexivity | apply IH].
Qed.

(** C3, as stated, fails: the integer 42 is a scalar of the reply, and the
    extractor returns [None] for it, bare or nested, instead of 42. *)
Lemma extract_id_drops_integer_scalar :
  is_scalar (PInt 42) = true /\
  extract_id (PInt 42) = PNone /\
  extract_id (PList [PList [PInt 42]]) = PNone /\
  extract_id (PInt 42) <> PInt 42.
Proof. repeat split; discriminate. Qed.

(** C3, amended: the extractor returns a string as it is, recurses into the
    first element of a non-empty list, and returns [None] for every other
    value, the scalars that are not strings included.  Its result is always
    a string or [None]; a string under any number of nested one-element
    lists is found. *)
Theorem extract_id_spec :
  (forall s, extract_id (PStr s) = PStr s) /\
  (forall first rest, extract_id (PList (first :: rest)) = extract_id first) /\
  (forall v, is_str v = false ->
     (forall first rest, v <> PList (first :: rest)) ->
     extract_id v = PNone) /\
  (forall v, extract_id v = PNone \/ exists s, extract_id v = PStr s) /\
  (forall k s, extract_id (nest k (PStr s)) = PStr s) /\
  extract_id (PList [PList [PList [PList [PStr (str "id-7")]]]]) = PStr (str "id-7") /\
  extract_id (PList [PList [PStr (str "id-7")]]) = PStr (str "id-7") /\
  extract_id (PList [PStr (str "id-7")]) = PStr (str "id-7") /\
  extract_id (PList []) = PNone /\
  extract_id PNone = PNone.
Proof.
  split; [reflexivity|]. split; [reflexivity|]. split.
  { intros v Hstr Hlist. destruct v as [ | | | | s | [|first rest] | ];
      try reflexivity; [discriminate | edestruct Hlist; reflexivity]. }
  split; [exact extract_id_str_or_none|].
  split; [exact extract_id_nest|].
  repeat split.
Qed.

(** The third part of [extract_id_spec] at a boolean, a scalar that is
    neither a string nor a list. *)
Lemma extract_id_spec_witness :
  is_str (PBool true) = false /\ extract_id (PBool true) = PNone.
Proof.
  split; [reflexivity|].
  apply (proj1 (proj2 (proj2 extract_id_spec)) (PBool true)).
  - reflexivity.
  - intros first rest. discriminate.
Defined.

(** ** Strings *)

Section StringFacts.
Implicit Types (s t p : pystr) (c : N) (f : N -> bool).

Lemma str_eqb_eq s t : str_eqb s t = true <-> s = t.
Proof. unfold str_eqb. apply bool_decide_eq_true. Qed.

Lemma str_eqb_refl s : str_eqb s s = true.
Proof. apply str_eqb_eq. reflexivity. Qed.

Lemma str_mem_elem_of s (l : list pystr) : str_mem s l = true <-> s ∈ l.
Proof.
  unfold str_mem. rewrite existsb_exists. split.
  - intros (t & Hin & Heq). apply str_eqb_eq in Heq. subst t.
    apply list_elem_of_In. exact Hin.
  - intros Hin. exists s. split; [apply list_elem_of_In; exact Hin|].
    apply str_eqb_refl.
Qed.

Lemma has_char_elem_of c s : has_char c s = true <-> c ∈ s.
Proof.
  unfold has_char. rewrite existsb_exists. split.
  - intros (d & Hin & Heq). apply N.eqb_eq in Heq. subst d.
    apply list_elem_of_In. exact Hin.
  - intros Hin. exists c. split; [apply list_elem_of_In; exact Hin|].
    apply N.eqb_refl.
Qed.

Lemma str_truthy_nonempty s : str_truthy s = true <-> s <> [].
Proof. destruct s; simpl; split; congruence. Qed.

Lemma str_startswith_app s p : str_startswith s p = true <-> exists r, s = p ++ r.
Proof.
  revert s. induction p as [|c p IH]; intros s.
  - split; [exists s; reflexivity | intros _; destruct s; reflexivity].
  - destruct s as [|d s]; simpl.
    + split; [discriminate | intros (r & Hr); discriminate].
    + rewrite andb_true_iff, N.eqb_eq, IH. split.
      * intros (-> & r & ->). exists r. reflexivity.
      * intros (r & Hr). injection Hr as -> ->. split; [reflexivity|].
        exists r. reflexivity.
Qed.

Lemma str_endswith_app s suf : str_endswith s suf = true <-> exists r, s = r ++ suf.
Proof.
  unfold str_endswith. rewrite str_startswith_app. split.
  - intros (r & Hr). exists (rev r).
    rewrite <- (rev_involutive s), Hr, rev_app_distr, rev_involutive.
    reflexivity.
  - intros (r & ->). exists (rev r). apply rev_app_distr.
Qed.

Lemma str_contains_app sub s :
  str_contains sub s = true <-> exists pre post, s = pre ++ sub ++ post.
Proof.
  induction s as [|c s IH]; cbn [str_contains];
    rewrite orb_true_iff, str_startswith_app.
  - split.
    + intros [(r & Hr) | ?]; [|discriminate]. exists [], r. exact Hr.
    + intros (pre & post & H). left. destruct pre; [|discriminate].
      exists post. exact H.
  - rewrite IH. split.
    + intros [(r & Hr) | (pre & post & ->)].
      * exists [], r. exact Hr.
      * exists (c :: pre), post. reflexivity.
    + intros ([|d pre] & post & H).
      * left. exists post. exact H.
      * right. injection H as -> ->. exists pre, post. reflexivity.
Qed.

Lemma lstrip_by_split f s :
  exists ws, s = ws ++ lstrip_by f s /\ forallb f ws = true.
Proof.
  induction s as [|c s (ws & Hs & Hws)]; simpl.
  - exists []. split; reflexivity.
  - destruct (f c) eqn:Hc.
    + exists (c :: ws). simpl. rewrite Hc, Hws. split; [congruence | reflexivity].
    + exists []. split; reflexivity.
Qed.

Lemma lstrip_by_head f s c t : lstrip_by f s = c :: t -> f c = false.
Proof.
  induction s as [|d s IH]; simpl; [discriminate|].
  destruct (f d) eqn:Hd; [exact IH|]. intros [= -> ->]. exact Hd.
Qed.

Lemma lstrip_by_app f ws s :
  forallb f ws = true -> lstrip_by f (ws ++ s) = lstrip_by f s.
Proof.
  induction ws as [|c ws IH]; simpl; [reflexivity|].
  intros [Hc Hws]%andb_true_iff. rewrite Hc. apply IH, Hws.
Qed.

Lemma lstrip_by_stop f c s : f c = false -> lstrip_by f (c :: s) = c :: s.
Proof. intros Hc. simpl. rewrite Hc. reflexivity. Qed.

(** A stripped string does not end in white space. *)
Lemma rstrip_by_last f s t c : rstrip_by f s = t ++ [c] -> f c = false.
Proof.
  unfold rstrip_by. intros H.
  apply (f_equal (@rev N)) in H. rewrite rev_involutive, rev_app_distr in H.
  simpl in H. eapply lstrip_by_head, H.
Qed.

Lemma span_by_split f s run rest :
  span_by f s = (run, rest) ->
  s = run ++ rest /\ forallb f run = true /\
  match rest with [] => True | c :: _ => f c = false end.
Proof.
  revert run rest. induction s as [|c s IH]; simpl; intros run rest.
  - intros [= <- <-]. repeat split.
  - destruct (f c) eqn:Hc.
    + destruct (span_by f s) as [a b]. intros [= <- <-].
      destruct (IH a b eq_refl) as (-> & Ha & Hb).
      simpl. rewrite Hc, Ha. repeat split. exact Hb.
    + intros [= <- <-]. simpl. rewrite Hc. repeat split.
Qed.

Lemma span_by_app f run rest :
  forallb f run = true ->
  match rest with [] => True | c :: _ => f c = false end ->
  span_by f (run ++ rest) = (run, rest).
Proof.
  intros Hrun Hrest. induction run as [|c run IH]; simpl.
  - destruct rest as [|c rest]; [reflexivity|]. simpl. rewrite Hrest. reflexivity.
  - simpl in Hrun. apply andb_true_iff in Hrun as [Hc Hrun].
    rewrite Hc, (IH Hrun). reflexivity.
Qed.
End StringFacts.

(** ** The token patterns *)

Lemma forallb_not_quote_notin (v : pystr) :
  forallb (fun c => negb (c =? dquote)) v = true <-> dquote ∉ v.
Proof.
  induction v as [|c v IH]; simpl.
  - split; [intros _ H; inversion H | reflexivity].
  - rewrite andb_true_iff, IH, negb_true_iff, N.eqb_neq, not_elem_of_cons.
    split; intros [H1 H2]; (split; [intros H; apply H1; symmetry; exact H | exact H2]).
Qed.

Lemma match_quoted_value_spec (s value : pystr) :
  match_quoted_value s = Some value <->
  exists post, s = value ++ dquote :: post /\ value <> [] /\ dquote ∉ value.
Proof.
  unfold match_quoted_value. split.
  - destruct (span_by _ s) as [run rest] eqn:Hspan.
    apply span_by_split in Hspan as (-> & Hrun & Hrest).
    destruct run as [|c run]; [discriminate|].
    destruct rest as [|q post]; [discriminate|]. intros [= <-].
    apply negb_false_iff, N.eqb_eq in Hrest. subst q.
    exists post. split; [reflexivity|]. split; [discriminate|].
    apply forallb_not_quote_notin, Hrun.
  - intros (post & -> & Hne & Hnotin).
    rewrite span_by_app.
    + destruct value; [congruence | reflexivity].
    + apply forallb_not_quote_notin, Hnotin.
    + reflexivity.
Qed.

Lemma match_token_here_spec (key s value : pystr) :
  match_token_here key s = Some value <-> token_at key s value.
Proof.
  unfold match_token_here, token_at.
  set (quoted := [dquote] ++ key ++ [dquote]). split.
  - destruct (str_startswith s quoted) eqn:Hpre; [|discriminate].
    apply str_startswith_app in Hpre as (r & ->).
    rewrite drop_app_length.
    destruct (lstrip_by_split isspace r) as (ws1 & Hr & Hws1).
    destruct (lstrip_by isspace r) as [|c s1]; [discriminate|].
    destruct (c =? ch ":") eqn:Hc; [|discriminate].
    apply N.eqb_eq in Hc. subst c.
    destruct (lstrip_by_split isspace s1) as (ws2 & Hs1 & Hws2).
    destruct (lstrip_by isspace s1) as [|q s2]; [discriminate|].
    destruct (q =? dquote) eqn:Hq; [|discriminate].
    apply N.eqb_eq in Hq. subst q.
    intros (post & -> & Hne & Hnotin)%match_quoted_value_spec.
    exists ws1, ws2, post. rewrite Hr, Hs1. repeat split; assumption.
  - intros (ws1 & ws2 & post & -> & Hws1 & Hws2 & Hne & Hnotin).
    replace (str_startswith _ quoted) with true
      by (symmetry; apply str_startswith_app; eexists; reflexivity).
    rewrite drop_app_length, (lstrip_by_app _ _ _ Hws1).
    rewrite lstrip_by_stop by reflexivity.
    rewrite N.eqb_refl, (lstrip_by_app _ _ _ Hws2).
    rewrite lstrip_by_stop by reflexivity.
    rewrite N.eqb_refl. apply match_quoted_value_spec.
    exists post. repeat split; assumption.
Qed.

Lemma re_search_token_none (key html : pystr) :
  re_search_token key html = None <-> token_absent key html.
Proof.
  unfold token_absent. induction html as [|c html IH]; cbn [re_search_token].
  - destruct (match_token_here key []) as [v|] eqn:Hhere.
    + split; [discriminate|]. intros H. exfalso.
      apply (H [] [] v); [reflexivity|]. apply match_token_here_spec, Hhere.
    + split; [|reflexivity]. intros _ pre s value Hs Hat.
      destruct pre; [|discriminate]. simpl in Hs. subst s.
      apply match_token_here_spec in Hat. congruence.
  - destruct (match_token_here key (c :: html)) as [v|] eqn:Hhere.
    + split; [discriminate|]. intros H. exfalso.
      apply (H [] (c :: html) v); [reflexivity|].
      apply match_token_here_spec, Hhere.
    + rewrite IH. split.
      * intros H [|d pre] s value Hs Hat.
        -- simpl in Hs. subst s. apply match_token_here_spec in Hat. congruence.
        -- injection Hs as -> ->. eapply H; [reflexivity | exact Hat].
      * intros H pre s value -> Hat. apply (H (c :: pre) s value); [reflexivity | exact Hat].
Qed.

Lemma re_search_token_some (key html value : pystr) :
  re_search_token key html = Some value ->
  exists pre s, html = pre ++ s /\ token_at key s value.
Proof.
  induction html as [|c html IH]; cbn [re_search_token].
  - destruct (match_token_here key []) as [v|] eqn:Hhere; [|discriminate].
    intros [= ->]. exists [], []. split; [reflexivity|].
    apply match_token_here_spec, Hhere.
  - destruct (match_token_here key (c :: html)) as [v|] eqn:Hhere.
    + intros [= ->]. exists [], (c :: html). split; [reflexivity|].
      apply match_token_here_spec, Hhere.
    + intros (pre & s & -> & Hat)%IH. exists (c :: pre), s.
      split; [reflexivity | exact Hat].
Qed.

Lemma str_contains_occurs (sub s : pystr) :
  str_contains sub s = true <-> occurs_in sub s.
Proof. apply str_contains_app. Qed.

Lemma str_contains_not_occurs (sub s : pystr) :
  str_contains sub s = false <-> ~ occurs_in sub s.
Proof. rewrite <- str_contains_occurs. destruct (str_contains sub s); split; congruence. Qed.

(** How a token extractor ends, in terms of the pattern and the login
    marker: shared by both extractors. *)
Lemma extractor_cases (key html final_url : pystr) (not_found : value_error)
    (r : result pystr) :
  r = match re_search_token key html with
      | Some token => Return token
      | None =>
          if str_contains login_domain final_url || str_contains login_domain html
          then Raise (ValueError AuthenticationExpired)
          else Raise (ValueError not_found)
      end ->
  (exists token, r = Return token /\ ~ token_absent key html) \/
  (r = Raise (ValueError AuthenticationExpired) /\ token_absent key html /\
   (occurs_in login_domain final_url \/ occurs_in login_domain html)) \/
  (r = Raise (ValueError not_found) /\ token_absent key html /\
   ~ occurs_in login_domain final_url /\ ~ occurs_in login_domain html).
Proof.
  intros ->. destruct (re_search_token key html) as [token|] eqn:Hsearch.
  - left. exists token. split; [reflexivity|].
    rewrite <- re_search_token_none. congruence.
  - right. apply re_search_token_none in Hsearch.
    destruct (str_contains login_domain final_url) eqn:Hurl; simpl.
    + left. repeat split; [exact Hsearch|]. left. apply str_contains_occurs, Hurl.
    + destruct (str_contains login_domain html) eqn:Hhtml.
      * left. repeat split; [exact Hsearch|]. right. apply str_contains_occurs, Hhtml.
      * right. repeat split; [exact Hsearch| |];
          apply str_contains_not_occurs; assumption.
Qed.

Lemma extractor_raises (key html final_url : pystr) (not_found : value_error)
    (r : result pystr) :
  is_TokenExtractionError (ValueError not_found) = true ->
  is_AuthExpiredError (ValueError not_found) = false ->
  r = match re_search_token key html with
      | Some token => Return token
      | None =>
          if str_contains login_domain final_url || str_contains login_domain html
          then Raise (ValueError AuthenticationExpired)
          else Raise (ValueError not_found)
      end ->
  (raises is_AuthExpiredError r <->
     token_absent key html /\
     (occurs_in login_domain final_url \/ occurs_in login_domain html)) /\
  (raises is_TokenExtractionError r <->
     token_absent key html /\
     ~ occurs_in login_domain final_url /\ ~ occurs_in login_domain html).
Proof.
  intros Hkind1 Hkind2 Hr. unfold raises.
  destruct (extractor_cases key html final_url not_found r Hr)
    as [(t & -> & Hn) | [(-> & Ha & Hl) | (-> & Ha & Hl1 & Hl2)]].
  - split; split.
    + intros (e & He & _). discriminate He.
    + intros [Ha _]. contradiction.
    + intros (e & He & _). discriminate He.
    + intros [Ha _]. contradiction.
  - split; split.
    + intros _. split; assumption.
    + intros _. eexists. split; reflexivity.
    + intros (e & [= <-] & Hk). discriminate Hk.
    + intros (_ & Hn1 & Hn2). destruct Hl; contradiction.
  - split; split.
    + intros (e & [= <-] & Hk). congruence.
    + intros (_ & [Hl | Hl]); contradiction.
    + intros _. repeat split; assumption.
    + intros _. eexists. split; [reflexivity | exact Hkind1].
Qed.

(** C10: when its token pattern is absent from the HTML, an extractor
    raises the authentication-expired error exactly when
    [accounts.google.com] occurs in the final URL or anywhere in the HTML
    body, so also when only the body has it; it raises the
    page-structure-changed error exactly when the pattern is absent and the
    substring occurs in neither. *)
Theorem extractors_login_marker (html final_url : pystr) :
  (raises is_AuthExpiredError (extract_csrf_from_html html final_url) <->
     token_absent (str "SNlM0e") html /\
     (occurs_in login_domain final_url \/ occurs_in login_domain html)) /\
  (raises is_TokenExtractionError (extract_csrf_from_html html final_url) <->
     token_absent (str "SNlM0e") html /\
     ~ occurs_in login_domain final_url /\ ~ occurs_in login_domain html) /\
  (raises is_AuthExpiredError (extract_session_id_from_html html final_url) <->
     token_absent (str "FdrFJe") html /\
     (occurs_in login_domain final_url \/ occurs_in login_domain html)) /\
  (raises is_TokenExtractionError (extract_session_id_from_html html final_url) <->
     token_absent (str "FdrFJe") html /\
     ~ occurs_in login_domain final_url /\ ~ occurs_in login_domain html) /\
  extract_csrf_from_html
    (str "<a href='https://accounts.google.com/signin'>Sign in</a>")
    (str "https://notebooklm.google.com/")
  = Raise (ValueError AuthenticationExpired).
Proof.
  destruct (extractor_raises (str "SNlM0e") html final_url
              (CsrfTokenNotFound final_url)
              (extract_csrf_from_html html final_url) eq_refl eq_refl eq_refl)
    as [Hc1 Hc2].
  destruct (extractor_raises (str "FdrFJe") html final_url
              (SessionIdNotFound final_url)
              (extract_session_id_from_html html final_url)
              eq_refl eq_refl eq_refl)
    as [Hs1 Hs2].
  split; [exact Hc1|]. split; [exact Hc2|]. split; [exact Hs1|].
  split; [exact Hs2|]. vm_compute. reflexivity.
Qed.

(** ** Token acquisition *)

(** Every way [fetch_tokens] can end, from an empty log. *)
Lemma fetch_tokens_cases (w : world) (cookies : dict pystr pystr) :
  events (fetch_tokens w cookies) = [landing_request cookies] /\
  match http w [] (landing_request cookies) with
  | HttpRaises detail =>
      outcome (fetch_tokens w cookies) = Raise (HTTPError (TransportError detail))
  | HttpResponse r =>
      if is_success r then
        if str_contains login_domain (response_url r) then
          outcome (fetch_tokens w cookies) =
            Raise (ValueError (AuthenticationExpiredRedirectedTo (response_url r)))
        else
          match extract_csrf_from_html (response_text r) (response_url r) with
          | Raise e => outcome (fetch_tokens w cookies) = Raise e
          | Return csrf =>
              match extract_session_id_from_html (response_text r) (response_url r) with
              | Raise e => outcome (fetch_tokens w cookies) = Raise e
              | Return sid => outcome (fetch_tokens w cookies) = Return (csrf, sid)
              end
          end
      else
        outcome (fetch_tokens w cookies) =
          Raise (HTTPError (HTTPStatusError (status_code r)))
  end.
Proof.
  unfold events, outcome, fetch_tokens, bind, http_request, raise_for_status,
    lift, ret, raise. fold (landing_request cookies). simpl.
  destruct (http w [] (landing_request cookies)) as [r|detail]; simpl;
    [|split; reflexivity].
  destruct (is_success r); simpl; [|split; reflexivity].
  destruct (str_contains login_domain (response_url r)); simpl;
    [split; reflexivity|].
  destruct (extract_csrf_from_html _ _); simpl; [|split; reflexivity].
  destruct (extract_session_id_from_html _ _); simpl; split; reflexivity.
Qed.

Lemma from_storage_run (w : world) (path : option pystr) :
  from_storage w path [] =
  match load_auth_from_storage w path with
  | Raise e => ([], Raise e)
  | Return cookies =>
      (events (fetch_tokens w cookies),
       match outcome (fetch_tokens w cookies) with
       | Raise e => Raise e
       | Return tokens =>
           Return {| cookies := cookies; csrf_token := tokens.1;
                     session_id := tokens.2 |}
       end)
  end.
Proof.
  unfold from_storage, bind, lift, ret, events, outcome.
  destruct (load_auth_from_storage w path) as [cookies|e]; [|reflexivity].
  destruct (fetch_tokens w cookies []) as [log [tokens|e]]; reflexivity.
Qed.

(** C8, as stated, fails: a landing-page fetch that ends on
    accounts.google.com with status 429 makes acquisition fail with the HTTP
    status error of [raise_for_status], which is not the
    authentication-expired error. *)
Lemma acquire_login_redirect_http_error :
  let w := login_world 429 in
  exists cookies r,
    load_auth_from_storage w None = Return cookies /\
    http w [] (landing_request cookies) = HttpResponse r /\
    url_hostname ascii_runtime (response_url r) = Some login_domain /\
    str_contains login_domain (response_url r) = true /\
    outcome (from_storage w None) = Raise (HTTPError (HTTPStatusError 429)) /\
    is_AuthExpiredError (HTTPError (HTTPStatusError 429)) = false.
Proof.
  eexists _, _. split; [vm_compute; reflexivity|].
  split; [reflexivity|]. repeat split; vm_compute; reflexivity.
Qed.


(** The failures of the common head of the two loaders. *)
Lemma read_storage_state_raises (w : world) (path : option pystr) (e : exn) :
  read_storage_state w path = Raise e ->
  e = FileNotFoundError (default (DEFAULT_STORAGE_PATH w) path) \/
  exists err, e = ReadError err.
Proof.
  unfold read_storage_state, path_exists, read_bytes.
  destruct (fs w _) as [[size|size [data|]]| |]; intros H;
    try (injection H as <-; eauto; fail).
  destruct (loads_storage_state w data) as [err|st]; [|discriminate H].
  injection H as <-. eauto.
Qed.

(** C8, amended: when the landing-page fetch returns a response whose final
    URL is on accounts.google.com, acquisition issues that one request and
    fails with the authentication-expired error if the response has a
    success status, and with the HTTP status error otherwise; in neither
    case with the token-extraction error.  The token-extraction error is
    raised only when the response has a success status, a token pattern is
    absent from the body, and accounts.google.com occurs neither in the
    final URL nor in the body. *)
Theorem acquire_login_redirect :
  (forall w path cookies r,
     load_auth_from_storage w path = Return cookies ->
     http w [] (landing_request cookies) = HttpResponse r ->
     occurs_in login_domain (response_url r) ->
     events (from_storage w path) = [landing_request cookies] /\
     outcome (from_storage w path) =
       (if is_success r
        then Raise (ValueError (AuthenticationExpiredRedirectedTo (response_url r)))
        else Raise (HTTPError (HTTPStatusError (status_code r)))) /\
     (is_success r = true ->
      raises is_AuthExpiredError (outcome (from_storage w path))) /\
     ~ raises is_TokenExtractionError (outcome (from_storage w path))) /\
  (forall w path,
     raises is_TokenExtractionError (outcome (from_storage w path)) ->
     exists cookies r,
       load_auth_from_storage w path = Return cookies /\
       http w [] (landing_request cookies) = HttpResponse r /\
       is_success r = true /\
       ~ occurs_in login_domain (response_url r) /\
       ~ occurs_in login_domain (response_text r) /\
       (token_absent (str "SNlM0e") (response_text r) \/
        token_absent (str "FdrFJe") (response_text r))).
Proof.
  split.
  - intros w path cookies r Hload Hget Hurl.
    apply str_contains_occurs in Hurl.
    unfold events, outcome. rewrite from_storage_run, Hload. simpl.
    destruct (fetch_tokens_cases w cookies) as [Hev Hout].
    rewrite Hget, Hurl in Hout.
    split; [exact Hev|].
    destruct (is_success r); rewrite Hout.
    + split; [reflexivity|]. split.
      * intros _. eexists. split; reflexivity.
      * intros (e & [= <-] & Hk). discriminate Hk.
    + split; [reflexivity|]. split; [discriminate|].
      intros (e & [= <-] & Hk). discriminate Hk.
  - intros w path (e & He & Hk). unfold outcome in He.
    rewrite from_storage_run in He.
    destruct (load_auth_from_storage w path) as [cookies|e0] eqn:Hload.
    2:{ simpl in He. injection He as ->.
        unfold load_auth_from_storage in Hload.
        destruct (read_storage_state w path) as [st|e1] eqn:Hread.
        - unfold extract_cookies_from_storage in Hload.
          destruct (missing_cookies _); [discriminate Hload|].
          injection Hload as <-. discriminate Hk.
        - injection Hload as <-.
          apply read_storage_state_raises in Hread as [-> | (err & ->)];
            discriminate Hk. }
    simpl in He. exists cookies.
    destruct (fetch_tokens_cases w cookies) as [_ Hout].
    destruct (http w [] (landing_request cookies)) as [r|detail].
    2:{ rewrite Hout in He. injection He as <-. discriminate Hk. }
    exists r. split; [reflexivity|]. split; [reflexivity|].
    destruct (is_success r).
    2:{ rewrite Hout in He. injection He as <-. discriminate Hk. }
    split; [reflexivity|].
    destruct (str_contains login_domain (response_url r)) eqn:Hurl.
    { rewrite Hout in He. injection He as <-. discriminate Hk. }
    destruct (extractor_raises (str "SNlM0e") (response_text r) (response_url r)
                (CsrfTokenNotFound (response_url r))
                (extract_csrf_from_html (response_text r) (response_url r))
                eq_refl eq_refl eq_refl) as [_ Hc].
    destruct (extractor_raises (str "FdrFJe") (response_text r) (response_url r)
                (SessionIdNotFound (response_url r))
                (extract_session_id_from_html (response_text r) (response_url r))
                eq_refl eq_refl eq_refl) as [_ Hs].
    destruct (extract_csrf_from_html _ _) as [csrf|e1].
    + destruct (extract_session_id_from_html _ _) as [sid|e2].
      * rewrite Hout in He. discriminate He.
      * rewrite Hout in He. injection He as <-.
        destruct Hs as [Hs _]. destruct Hs as (Ha & Hn1 & Hn2).
        { exists e2. split; [reflexivity | exact Hk]. }
        repeat split; try assumption. right. exact Ha.
    + rewrite Hout in He. injection He as <-.
      destruct Hc as [Hc _]. destruct Hc as (Ha & Hn1 & Hn2).
      { exists e1. split; [reflexivity | exact Hk]. }
      repeat split; try assumption. left. exact Ha.
Qed.

(** [acquire_login_redirect] at a world whose landing page answers from the
    login domain with status 200. *)
Lemma acquire_login_redirect_witness :
  raises is_AuthExpiredError (outcome (from_storage (login_world 200) None)).
Proof.
  refine (proj1 (proj2 (proj2
    (proj1 acquire_login_redirect (login_world 200) None
       [(str "SID", str "xyz")]
       {| status_code := 200;
          response_url := str "https://accounts.google.com/v3/signin";
          response_headers := [];
          response_text := str "<html>Sign in</html>" |}
       _ _ _))) _).
  - vm_compute. reflexivity.
  - reflexivity.
  - apply str_contains_occurs. vm_compute. reflexivity.
  - reflexivity.
Defined.

(** ** Deleting and adding remote sources *)

Lemma nonempty_list_test (v : pyval) :
  negb (py_truthy v) || negb (is_list v) = negb (is_nonempty_list v).
Proof.
  destruct v as [ | b | z | bits | s | [|x l] | d ]; simpl;
    rewrite ?orb_true_r; reflexivity.
Qed.

(** C5, as stated, fails: when the remote call fails, [delete] ends with the
    error of the remote call, which is not a [SourceDeleteError]. *)
Lemma delete_propagates_remote_error :
  outcome (delete offline_world (str "nb-1") (str "src-1"))
    = Raise (RPCError (str "connection reset")) /\
  is_SourceDeleteError (RPCError (str "connection reset")) = false.
Proof. split; reflexivity. Qed.

(** C5, amended: for every notebook and source identifier, and whatever
    happened before, [delete] issues exactly one remote call; it returns
    when the call returns, and when the call fails it ends with the error
    of the remote call, unchanged, without a second attempt.  It never
    raises [SourceDeleteError]. *)
Theorem delete_single_call (w : world) (notebook_id source_id : pystr)
    (log : list event) :
  delete w notebook_id source_id log =
    (log ++ [delete_request notebook_id source_id],
     match rpc w log (delete_request notebook_id source_id) with
     | RpcReply _ => Return tt
     | RpcRaises detail => Raise (RPCError detail)
     end) /\
  ~ raises is_SourceDeleteError (delete w notebook_id source_id log).2.
Proof.
  unfold delete, bind, rpc_call, ret, raises.
  fold (delete_request notebook_id source_id).
  destruct (rpc w log (delete_request notebook_id source_id)) as [v|detail];
    simpl; (split; [reflexivity|]); intros (e & He & Hk); [discriminate He|].
  injection He as <-. discriminate Hk.
Qed.

Lemma classify_cases (rt : runtime) (w : world) (source : pystr)
    (kind : SourceKind) :
  classify rt (is_regular_file w) source = Return kind ->
  (is_regular_file w source = Return true /\ kind = LocalFile source) \/
  (is_regular_file w source = Return false /\
   exists video_id,
     _parse_youtube_url rt source = Return video_id /\
     if str_truthy (default [] video_id)
     then kind = VideoReference source (default [] video_id)
     else kind = GenericUrl source).
Proof.
  unfold classify. destruct (is_regular_file w source) as [[|]|e0].
  - intros [= <-]. left. split; reflexivity.
  - intros H. right. split; [reflexivity|].
    destruct (_parse_youtube_url rt source) as [[video_id|]|e];
      [| |discriminate H].
    + exists (Some video_id). split; [reflexivity|]. simpl.
      destruct (str_truthy video_id); congruence.
    + injection H as <-. exists None. split; reflexivity.
  - discriminate.
Qed.

(** The head of [add] when the file test answers. *)
Lemma add_head (rt : runtime) (w : world) (auth : AuthTokens)
    (notebook_id source : pystr) (is_file : bool) :
  is_regular_file w source = Return is_file ->
  add rt w auth notebook_id source =
  if is_file then _add_file_source w auth notebook_id source
  else
    do video_id <- lift (_parse_youtube_url rt source);
    if str_truthy (default [] video_id) then
      do result <- _add_youtube_source w notebook_id source;
      ret (str "youtube_source_added")
    else
      do result <- _add_url_source w notebook_id source;
      if negb (py_truthy result) || negb (is_list result)
      then raise (SourceAddError source (str "Failed to add URL source"))
      else ret (str "url_source_added").
Proof. intros H. unfold add. rewrite H. reflexivity. Qed.

(** When the file test raises, [add] ends with its error before any
    request. *)
Lemma add_head_raises (rt : runtime) (w : world) (auth : AuthTokens)
    (notebook_id source : pystr) (e : exn) :
  is_regular_file w source = Raise e ->
  add rt w auth notebook_id source = raise e.
Proof. intros H. unfold add. rewrite H. reflexivity. Qed.

(** [add] does what the classification of its input says: the tests of
    [classify] are the tests at the head of [add]. *)
Lemma add_dispatch (rt : runtime) (w : world) (auth : AuthTokens)
    (notebook_id source : pystr) :
  add rt w auth notebook_id source =
  match classify rt (is_regular_file w) source with
  | Raise e => raise e
  | Return (LocalFile path) => _add_file_source w auth notebook_id path
  | Return (VideoReference url _) =>
      do result <- _add_youtube_source w notebook_id url;
      ret (str "youtube_source_added")
  | Return (GenericUrl url) =>
      do result <- _add_url_source w notebook_id url;
      if negb (py_truthy result) || negb (is_list result)
      then raise (SourceAddError url (str "Failed to add URL source"))
      else ret (str "url_source_added")
  end.
Proof.
  unfold classify.
  destruct (is_regular_file w source) as [[|]|e0] eqn:Hfile;
    [rewrite (add_head _ _ _ _ _ _ Hfile); reflexivity
    | rewrite (add_head _ _ _ _ _ _ Hfile)
    | rewrite (add_head_raises _ _ _ _ _ _ Hfile); reflexivity].
  destruct (_parse_youtube_url rt source) as [[video_id|]|e];
    cbv beta iota delta [bind lift default from_option id];
    [destruct (str_truthy video_id)| |]; reflexivity.
Qed.

(** C4, as stated, fails: for a generic URL whose remote call raises, [add]
    ends with the error of the remote call, which is not a
    [SourceAddError]. *)
Lemma add_url_propagates_remote_error :
  let source := str "https://example.com/article" in
  classify ascii_runtime (is_regular_file offline_world) source
    = Return (GenericUrl source) /\
  outcome (add ascii_runtime offline_world no_auth (str "nb-1") source)
    = Raise (RPCError (str "connection reset")) /\
  is_SourceAddError (RPCError (str "connection reset")) = false.
Proof. repeat split; vm_compute; reflexivity. Qed.

(** The video path does not look at the reply: whatever the remote call
    returns, an empty reply included, [add] reports success. *)
Lemma add_video_ignores_reply (rt : runtime) (w : world) (auth : AuthTokens)
    (notebook_id source video_id : pystr) (reply : pyval) :
  classify rt (is_regular_file w) source = Return (VideoReference source video_id) ->
  rpc w [] (add_youtube_request notebook_id source) = RpcReply reply ->
  outcome (add rt w auth notebook_id source) = Return (str "youtube_source_added").
Proof.
  intros Hc Hreply. apply classify_cases in Hc as [[_ [=]] | (Hfile & v & Hv & Hk)].
  unfold outcome. rewrite (add_head _ _ _ _ _ _ Hfile).
  unfold bind, lift. rewrite Hv.
  destruct (str_truthy (default [] v)); [|discriminate Hk].
  unfold _add_youtube_source, rpc_call, ret.
  fold (add_youtube_request notebook_id source). rewrite Hreply. reflexivity.
Qed.

(** C4, amended: for every input classified as a generic URL or as a video
    reference, [add] issues exactly one remote add-source call, and when
    that call raises, [add] ends with the error of the remote call,
    unchanged.  For a generic URL, [add] raises [SourceAddError] when the
    call returns an empty or non-sequence reply, and succeeds exactly on a
    non-empty reply sequence. *)
Theorem add_remote_source (rt : runtime) (w : world) (auth : AuthTokens)
    (notebook_id source : pystr) :
  (classify rt (is_regular_file w) source = Return (GenericUrl source) ->
   events (add rt w auth notebook_id source)
     = [add_url_request notebook_id source] /\
   outcome (add rt w auth notebook_id source) =
     match rpc w [] (add_url_request notebook_id source) with
     | RpcRaises detail => Raise (RPCError detail)
     | RpcReply reply =>
         if is_nonempty_list reply then Return (str "url_source_added")
         else Raise (SourceAddError source (str "Failed to add URL source"))
     end) /\
  (forall video_id,
     classify rt (is_regular_file w) source
       = Return (VideoReference source video_id) ->
     events (add rt w auth notebook_id source)
       = [add_youtube_request notebook_id source] /\
     forall detail,
       rpc w [] (add_youtube_request notebook_id source) = RpcRaises detail ->
       outcome (add rt w auth notebook_id source) = Raise (RPCError detail)).
Proof.
  split.
  - intros Hc. apply classify_cases in Hc as [[_ [=]] | (Hfile & v & Hv & Hk)].
    unfold events, outcome. rewrite (add_head _ _ _ _ _ _ Hfile).
    unfold bind, lift. rewrite Hv.
    destruct (str_truthy (default [] v)); [discriminate Hk|].
    unfold _add_url_source, rpc_call, ret, raise.
    fold (add_url_request notebook_id source).
    destruct (rpc w [] (add_url_request notebook_id source)) as [reply|detail];
      simpl; [|split; reflexivity].
    rewrite nonempty_list_test.
    destruct (is_nonempty_list reply); split; reflexivity.
  - intros video_id Hc.
    apply classify_cases in Hc as [[_ [=]] | (Hfile & v & Hv & Hk)].
    unfold events, outcome. rewrite (add_head _ _ _ _ _ _ Hfile).
    unfold bind, lift. rewrite Hv.
    destruct (str_truthy (default [] v)); [|discriminate Hk].
    unfold _add_youtube_source, rpc_call, ret.
    fold (add_youtube_request notebook_id source).
    split.
    + destruct (rpc w [] _); reflexivity.
    + intros detail ->. reflexivity.
Qed.

(** [add_remote_source] at a generic URL, in a world where every remote
    call fails. *)
Lemma add_remote_source_witness :
  events (add ascii_runtime offline_world no_auth (str "nb-1")
            (str "https://example.com/article"))
    = [add_url_request (str "nb-1") (str "https://example.com/article")].
Proof.
  refine (proj1 (proj1 (add_remote_source ascii_runtime offline_world no_auth
            (str "nb-1") (str "https://example.com/article")) _)).
  vm_compute. reflexivity.
Defined.

(** ** The file upload *)

Section Chunks.
Variable n : nat.
Hypothesis n_positive : (0 < n)%nat.

Lemma take_nil_inv {A} (l : list A) : take n l = [] -> l = [].
Proof. destruct n, l; simpl; first [lia | congruence]. Qed.

(** The chunks, put end to end, are the file. *)
Lemma read_chunks_concat (data : list Byte.byte) :
  concat (read_chunks n data) = data.
Proof.
  funelim (read_chunks n data); simpl.
  - symmetry. apply take_nil_inv. assumption.
  - match goal with IH : concat _ = _ |- _ => rewrite IH end.
    change (b :: chunk ++ drop n data) with ((b :: chunk) ++ drop n data).
    match goal with E : take n data = _ |- _ => rewrite <- E end.
    apply take_drop.
Qed.

(** No chunk is empty, and none is longer than the read size. *)
Lemma read_chunks_sizes (data : list Byte.byte) :
  Forall (fun chunk => (0 < length chunk <= n)%nat) (read_chunks n data).
Proof.
  funelim (read_chunks n data); constructor.
  - split; [simpl; lia|].
    match goal with E : take n data = _ |- _ => rewrite <- E end.
    rewrite length_take. lia.
  - assumption.
Qed.

Lemma read_chunks_nil : read_chunks n [] = [].
Proof.
  pose proof (read_chunks_concat []) as Hcat.
  pose proof (read_chunks_sizes []) as Hsizes.
  destruct (read_chunks n []) as [|chunk rest]; [reflexivity|].
  inversion Hsizes as [|? ? Hchunk _]; subst.
  destruct chunk; [simpl in Hchunk; lia | discriminate Hcat].
Qed.


(** The byte count of the chunks is the size of the file. *)
Lemma read_chunks_total (data : list Byte.byte) :
  length (concat (read_chunks n data)) = length data.
Proof. rewrite read_chunks_concat. reflexivity. Qed.
End Chunks.

Lemma CHUNK_SIZE_positive : (0 < CHUNK_SIZE)%nat.
Proof. unfold CHUNK_SIZE. lia. Qed.

Lemma CHUNK_SIZE_bytes : N.of_nat CHUNK_SIZE = 64 * 1024.
Proof. unfold CHUNK_SIZE. rewrite N2Nat.id. reflexivity. Qed.

Lemma registered_id_spec (reply : pyval) (source_id : pystr) :
  registered_id reply = Some source_id <->
  is_nonempty_list reply = true /\ extract_id reply = PStr source_id /\
  source_id <> [].
Proof.
  unfold registered_id.
  replace (py_truthy reply && is_list reply) with (is_nonempty_list reply)
    by (destruct reply as [ | | | | | [|x l] | [|x l] ]; simpl;
        rewrite ?andb_false_r; reflexivity).
  destruct (is_nonempty_list reply); [|split; [discriminate | intros [[=] _]]].
  destruct (extract_id reply) as [ | | | | s | | ];
    try (split; [discriminate | intros (_ & [=] & _)]).
  destruct s as [|c s]; simpl.
  - split; [discriminate | intros (_ & [= <-] & Hne); congruence].
  - split; [intros [= <-] | intros (_ & [= <-] & _)]; repeat split; discriminate.
Qed.

(** How [add] runs on a regular file, readable or not: each phase, and
    what ends the run. *)
Lemma add_regular_file_run (rt : runtime) (w : world) (auth : AuthTokens)
    (notebook_id path : pystr) (size : N) (bytes : option (list Byte.byte)) :
  fs w path = Found (RegularFile size bytes) ->
  let filename := path_name path in
  let reg := register_request notebook_id filename in
  let neg := negotiate_request auth notebook_id filename size in
  let xfer := fun url =>
    HttpPost url (upload_headers auth) (transfer_body bytes) 300 in
  add rt w auth notebook_id path [] =
  match rpc w [] reg with
  | RpcRaises detail => ([reg], Raise (RPCError detail))
  | RpcReply reply =>
      match registered_id reply with
      | None => ([reg], Raise (registration_failed filename))
      | Some sid =>
          match http w [reg] (neg sid) with
          | HttpRaises detail =>
              ([reg; neg sid], Raise (HTTPError (TransportError detail)))
          | HttpResponse r1 =>
              if is_success r1 then
                match negotiated_url r1 with
                | None =>
                    ([reg; neg sid],
                     Raise (SourceAddError filename
                              (str "Failed to get upload URL from response headers")))
                | Some url =>
                    ([reg; neg sid; xfer url],
                     match http w [reg; neg sid] (xfer url) with
                     | HttpRaises detail =>
                         Raise (HTTPError (TransportError detail))
                     | HttpResponse r2 =>
                         match bytes with
                         | None => Raise (ReadError OSError)
                         | Some _ =>
                             if is_success r2 then Return sid
                             else Raise (HTTPError
                                           (HTTPStatusError (status_code r2)))
                         end
                     end)
                end
              else ([reg; neg sid],
                    Raise (HTTPError (HTTPStatusError (status_code r1))))
          end
      end
  end.
Proof.
  intros Hfile filename reg neg xfer.
  assert (Htest : is_regular_file w path = Return true)
    by (unfold is_regular_file, path_exists, path_is_file; rewrite Hfile;
        reflexivity).
  rewrite (add_head _ _ _ _ _ _ Htest).
  unfold _add_file_source, path_exists, path_stat. rewrite Hfile.
  unfold bind at 1, lift at 1. cbn [negb].
  unfold bind at 1, lift at 1. cbn [st_size_of]. fold filename.
  unfold bind at 1. unfold _register_file_source, bind at 1.
  unfold rpc_call. fold (register_request notebook_id filename). fold reg.
  cbn [app].
  destruct (rpc w [] reg) as [reply|detail]; [|reflexivity].
  fold (registration_failed filename).
  assert (Hreg :
    (if py_truthy reply && is_list reply
     then match extract_id reply with
          | PStr source_id =>
              if str_truthy source_id then ret source_id
              else raise (registration_failed filename)
          | _ => raise (registration_failed filename)
          end
     else raise (registration_failed filename)) [reg]
    = match registered_id reply with
      | Some sid => ([reg], Return sid)
      | None => ([reg], Raise (registration_failed filename))
      end).
  { unfold registered_id. destruct (py_truthy reply && is_list reply);
      [|reflexivity].
    destruct (extract_id reply) as [ | | | | s | | ]; try reflexivity.
    destruct (str_truthy s); reflexivity. }
  rewrite Hreg. clear Hreg.
  destruct (registered_id reply) as [sid|]; [|reflexivity].
  unfold bind at 1. unfold _start_resumable_upload, bind at 1.
  unfold http_request at 1.
  fold (negotiate_request auth notebook_id filename size sid).
  fold (neg sid). cbn [app].
  destruct (http w [reg] (neg sid)) as [r1|detail]; [|reflexivity].
  unfold bind at 1. unfold raise_for_status at 1.
  destruct (is_success r1); [|reflexivity].
  unfold ret at 1. fold (negotiated_url r1).
  unfold negotiated_url.
  destruct (dict_get (response_headers r1) (str "x-goog-upload-url"))
    as [url|]; [|reflexivity].
  destruct (str_truthy url); [|reflexivity].
  unfold ret at 1. unfold bind at 1.
  unfold _upload_file_streaming, read_bytes. rewrite Hfile.
  destruct bytes as [data|].
  - unfold bind at 1. unfold http_request. cbn [app].
    change (HttpPost url (upload_headers auth) (Stream (file_stream data)) 300)
      with (xfer url).
    destruct (http w [reg; neg sid] (xfer url)) as [r2|detail]; [|reflexivity].
    unfold bind, raise_for_status.
    destruct (is_success r2); reflexivity.
  - cbn [app].
    change (HttpPost url (upload_headers auth) FailingStream 300)
      with (xfer url).
    destruct (http w [reg; neg sid] (xfer url)); reflexivity.
Qed.




(** ** Dictionaries *)

Section DictFacts.
Context {K V : Type} `{EqDecision K}.
Implicit Types (d : dict K V) (k : K) (v : V).

Lemma dict_get_set d k v k' :
  dict_get (dict_set d k v) k' = if decide (k = k') then Some v else dict_get d k'.
Proof.
  induction d as [|[k0 v0] d IH]; simpl.
  - destruct (decide (k = k')); reflexivity.
  - destruct (decide (k0 = k)) as [->|Hne]; simpl.
    + destruct (decide (k = k')); reflexivity.
    + rewrite IH. destruct (decide (k0 = k')) as [->|]; [|reflexivity].
      destruct (decide (k = k')); congruence.
Qed.

Lemma dict_keys_set d k v k' :
  k' ∈ dict_keys (dict_set d k v) <-> k' = k \/ k' ∈ dict_keys d.
Proof.
  unfold dict_keys. induction d as [|[k0 v0] d IH]; simpl.
  - rewrite list_elem_of_singleton. split; [auto | intros [?|H]; [assumption | inversion H]].
  - destruct (decide (k0 = k)) as [->|Hne]; simpl;
      rewrite !elem_of_cons; [tauto|]. rewrite IH. tauto.
Qed.

Lemma dict_get_keys d k : is_Some (dict_get d k) <-> k ∈ dict_keys d.
Proof.
  unfold dict_keys. induction d as [|[k0 v0] d IH]; simpl.
  - split; [intros [v [=]] | intros H; inversion H].
  - rewrite elem_of_cons. destruct (decide (k0 = k)) as [->|Hne].
    + split; [auto | eexists; reflexivity].
    + rewrite IH. split; [auto | intros [?|?]; congruence].
Qed.

Lemma last_value_snoc (items : list (K * V)) (item : K * V) k :
  last_value (items ++ [item]) k =
  if decide (item.1 = k) then Some item.2 else last_value items k.
Proof. unfold last_value. rewrite foldl_snoc. reflexivity. Qed.

(** A dictionary built by assignments maps a key to the value assigned to
    it last. *)
Lemma dict_get_update d (items : list (K * V)) k :
  dict_get (dict_update d items) k =
  match last_value items k with
  | Some v => Some v
  | None => dict_get d k
  end.
Proof.
  induction items as [|item items IH] using rev_ind.
  - reflexivity.
  - unfold dict_update in *. rewrite foldl_snoc, dict_get_set, last_value_snoc.
    destruct (decide (item.1 = k)); [reflexivity | exact IH].
Qed.

Lemma last_value_is_Some (items : list (K * V)) k :
  is_Some (last_value items k) <-> exists v, (k, v) ∈ items.
Proof.
  induction items as [|item items IH] using rev_ind.
  - split; [intros [v [=]] | intros [v H]; inversion H].
  - rewrite last_value_snoc. destruct (decide (item.1 = k)) as [<-|Hne].
    + split; [|eexists; reflexivity]. intros _. exists item.2.
      rewrite elem_of_app, list_elem_of_singleton. right. destruct item; reflexivity.
    + rewrite IH. split; intros [v Hv]; exists v.
      * rewrite elem_of_app. left. exact Hv.
      * rewrite elem_of_app, list_elem_of_singleton in Hv.
        destruct Hv as [Hv|Heq]; [exact Hv|]. subst item. contradiction Hne.
        reflexivity.
Qed.

Lemma last_value_elem_of (items : list (K * V)) k v :
  last_value items k = Some v -> (k, v) ∈ items.
Proof.
  induction items as [|item items IH] using rev_ind; [discriminate|].
  rewrite last_value_snoc, elem_of_app, list_elem_of_singleton.
  destruct (decide (item.1 = k)) as [<-|Hne].
  - intros [= <-]. right. destruct item; reflexivity.
  - intros Hv. left. apply IH, Hv.
Qed.
End DictFacts.

(** ** The cookie filters *)

Lemma _is_allowed_cookie_domain_spec (d : pystr) :
  _is_allowed_cookie_domain d = true <-> exact_domain d \/ dot_suffix_domain d.
Proof.
  unfold _is_allowed_cookie_domain, exact_domain, dot_suffix_domain.
  destruct (str_mem d ALLOWED_COOKIE_DOMAINS) eqn:Hmem.
  { apply str_mem_elem_of in Hmem. tauto. }
  split.
  - intros H. right. unfold allowed_suffixes in H. cbn [existsb] in H.
    rewrite !orb_true_iff, !str_eqb_eq, !str_endswith_app in H.
    destruct H as [[-> | (pre & ->)] | [[-> | (pre & ->)] | [[-> | (pre & ->)] | Hf]]];
      [ | | | | | | discriminate Hf].
    + exists (str ".google.com"), (str "google.com"), [].
      split; [apply str_mem_elem_of|]; split; reflexivity.
    + exists (str ".google.com"), (str "google.com"), pre.
      split; [apply str_mem_elem_of|]; split; reflexivity.
    + exists (str ".googleusercontent.com"), (str "googleusercontent.com"), [].
      split; [apply str_mem_elem_of|]; split; reflexivity.
    + exists (str ".googleusercontent.com"), (str "googleusercontent.com"), pre.
      split; [apply str_mem_elem_of|]; split; reflexivity.
    + exists (str ".google.com"), (str "google.com"), (str ".usercontent").
      split; [apply str_mem_elem_of|]; split; reflexivity.
    + exists (str ".google.com"), (str "google.com"), (pre ++ str ".usercontent").
      split; [apply str_mem_elem_of; reflexivity|]. split; [reflexivity|].
      rewrite <- app_assoc. reflexivity.
  - intros [Hex | (a & rest & pre & Ha & Hdot & ->)].
    { apply str_mem_elem_of in Hex. congruence. }
    unfold ALLOWED_COOKIE_DOMAINS in Ha.
    rewrite !elem_of_cons in Ha.
    destruct Ha as [-> | [-> | [-> | Ha]]];
      [ | discriminate Hdot | | inversion Ha ];
      unfold allowed_suffixes; cbn [existsb];
      rewrite !orb_true_iff, !str_endswith_app.
    + left. right. exists pre. reflexivity.
    + right. left. right. exists pre. reflexivity.
Qed.

Lemma extract_cookie_step_keeps (d : dict pystr pystr) (c : cookie) :
  extract_cookie_step d c =
  if rpc_keeps c then dict_set d (name_of c) (value_of c) else d.
Proof.
  unfold extract_cookie_step, rpc_keeps, domain_of, name_of, value_of.
  destruct (str_mem _ ALLOWED_COOKIE_DOMAINS); [|reflexivity].
  destruct (cookie_name c) as [name|]; reflexivity.
Qed.

Lemma load_cookie_step_keeps (jar : cookie_jar) (names : list pystr) (c : cookie) :
  load_cookie_step (jar, names) c =
  if download_keeps c
  then (dict_set jar (domain_of c, name_of c) (value_of c), name_of c :: names)
  else (jar, names).
Proof. reflexivity. Qed.

Lemma extract_loop_items (d : dict pystr pystr) (l : list cookie) :
  foldl extract_cookie_step d l = dict_update d (rpc_items l).
Proof.
  revert d. induction l as [|c l IH]; intros d; [reflexivity|].
  cbn [foldl]. rewrite IH, extract_cookie_step_keeps.
  unfold rpc_items. rewrite filter_cons.
  destruct (rpc_keeps c) eqn:Hc.
  - rewrite decide_True by exact I. reflexivity.
  - rewrite decide_False by exact id. reflexivity.
Qed.

Lemma load_loop_items (jar : cookie_jar) (names : list pystr) (l : list cookie) :
  foldl load_cookie_step (jar, names) l =
  (dict_update jar (download_items l),
   rev (map name_of (filter download_keeps l)) ++ names).
Proof.
  revert jar names. induction l as [|c l IH]; intros jar names; [reflexivity|].
  cbn [foldl]. rewrite load_cookie_step_keeps.
  unfold download_items. rewrite filter_cons.
  destruct (download_keeps c) eqn:Hc.
  - rewrite decide_True by exact I. rewrite IH.
    cbn [map rev]. rewrite <- app_assoc. reflexivity.
  - rewrite decide_False by exact id. apply IH.
Qed.

Lemma missing_cookies_SID (names : list pystr) :
  missing_cookies names = if str_mem (str "SID") names then [] else [str "SID"].
Proof.
  unfold missing_cookies, MINIMUM_REQUIRED_COOKIES. rewrite filter_cons, filter_nil.
  destruct (str_mem (str "SID") names) eqn:Hm.
  - rewrite decide_False by exact id. reflexivity.
  - rewrite decide_True by exact I. reflexivity.
Qed.

Lemma dict_keys_update (d : dict pystr pystr) (items : list (pystr * pystr))
    (k : pystr) :
  k ∈ dict_keys (dict_update d items) <-> k ∈ dict_keys d \/ k ∈ map fst items.
Proof.
  revert d. induction items as [|[k0 v0] items IH]; intros d.
  - simpl. split; [auto | intros [?|H]; [assumption | inversion H]].
  - unfold dict_update in *. cbn [foldl map fst]. rewrite IH, dict_keys_set.
    rewrite elem_of_cons. simpl. tauto.
Qed.

Lemma rpc_keeps_spec (c : cookie) :
  rpc_keeps c = true <-> exact_domain (domain_of c) /\ name_of c <> [].
Proof.
  unfold rpc_keeps, exact_domain.
  rewrite andb_true_iff, str_mem_elem_of, str_truthy_nonempty. reflexivity.
Qed.

Lemma download_keeps_spec (c : cookie) :
  download_keeps c = true <->
  (exact_domain (domain_of c) \/ dot_suffix_domain (domain_of c)) /\
  name_of c <> [] /\ value_of c <> [].
Proof.
  unfold download_keeps.
  rewrite !andb_true_iff, _is_allowed_cookie_domain_spec, !str_truthy_nonempty.
  tauto.
Qed.

Lemma elem_of_rpc_items (l : list cookie) (n v : pystr) :
  (n, v) ∈ rpc_items l <->
  exists c, c ∈ l /\ rpc_keeps c = true /\ name_of c = n /\ value_of c = v.
Proof.
  unfold rpc_items. rewrite list_elem_of_fmap. split.
  - intros (c & [= -> ->] & Hc). apply list_elem_of_filter in Hc as [Hk Hc].
    exists c. repeat split; [exact Hc | apply Is_true_true, Hk].
  - intros (c & Hc & Hk & <- & <-). exists c. split; [reflexivity|].
    apply list_elem_of_filter. split; [apply Is_true_true, Hk | exact Hc].
Qed.

Lemma elem_of_download_items (l : list cookie) (d n v : pystr) :
  (d, n, v) ∈ download_items l <->
  exists c, c ∈ l /\ download_keeps c = true /\
            domain_of c = d /\ name_of c = n /\ value_of c = v.
Proof.
  unfold download_items. rewrite list_elem_of_fmap. split.
  - intros (c & [= -> -> ->] & Hc). apply list_elem_of_filter in Hc as [Hk Hc].
    exists c. repeat split; [exact Hc | apply Is_true_true, Hk].
  - intros (c & Hc & Hk & <- & <- & <-). exists c. split; [reflexivity|].
    apply list_elem_of_filter. split; [apply Is_true_true, Hk | exact Hc].
Qed.

(** The check for the required cookie in [extract_cookies_from_storage]. *)
Lemma rpc_has_SID (l : list cookie) :
  str_mem (str "SID") (dict_keys (foldl extract_cookie_step [] l)) = true <->
  exists c, c ∈ l /\ exact_domain (domain_of c) /\ name_of c = str "SID".
Proof.
  rewrite str_mem_elem_of, extract_loop_items, dict_keys_update.
  rewrite list_elem_of_fmap. split.
  - intros [H | ([n v] & Hn & Hin)]; [inversion H|]. simpl in Hn. subst n.
    apply elem_of_rpc_items in Hin as (c & Hc & Hk & Hname & _).
    apply rpc_keeps_spec in Hk as [Hd _]. exists c. auto.
  - intros (c & Hc & Hd & Hname). right. exists (name_of c, value_of c).
    split; [symmetry; exact Hname|]. apply elem_of_rpc_items.
    exists c. repeat split; [exact Hc|]. apply rpc_keeps_spec.
    split; [exact Hd|]. rewrite Hname. discriminate.
Qed.

(** The check for the required cookie in [load_httpx_cookies]. *)
Lemma download_has_SID (l : list cookie) :
  str_mem (str "SID") (foldl load_cookie_step ([], []) l).2 = true <->
  exists c, c ∈ l /\
            (exact_domain (domain_of c) \/ dot_suffix_domain (domain_of c)) /\
            name_of c = str "SID" /\ value_of c <> [].
Proof.
  rewrite str_mem_elem_of, load_loop_items. cbn [snd]. rewrite app_nil_r.
  rewrite list_elem_of_In, <- in_rev, <- list_elem_of_In, list_elem_of_fmap.
  split.
  - intros (c & Hname & Hc). apply list_elem_of_filter in Hc as [Hk Hc].
    apply Is_true_true, download_keeps_spec in Hk as (Hd & _ & Hv).
    exists c. auto.
  - intros (c & Hc & Hd & Hname & Hv). exists c. split; [symmetry; exact Hname|].
    apply list_elem_of_filter. split; [|exact Hc].
    apply Is_true_true, download_keeps_spec. repeat split; try assumption.
    rewrite Hname. discriminate.
Qed.

Lemma extract_cookies_from_storage_cases (st : storage_state) :
  extract_cookies_from_storage st =
  if str_mem (str "SID")
       (dict_keys (foldl extract_cookie_step [] (cookie_list st)))
  then Return (foldl extract_cookie_step [] (cookie_list st))
  else Raise (ValueError (MissingRequiredCookies [str "SID"])).
Proof.
  unfold extract_cookies_from_storage. fold (cookie_list st).
  rewrite missing_cookies_SID. destruct (str_mem _ _); reflexivity.
Qed.

Lemma load_httpx_cookies_from_cases (st : storage_state) :
  load_httpx_cookies_from st =
  if str_mem (str "SID") (foldl load_cookie_step ([], []) (cookie_list st)).2
  then Return (foldl load_cookie_step ([], []) (cookie_list st)).1
  else Raise (ValueError (MissingRequiredCookiesForDownloads [str "SID"])).
Proof.
  unfold load_httpx_cookies_from. fold (cookie_list st).
  destruct (foldl load_cookie_step _ _) as [jar names]. cbn [fst snd].
  rewrite missing_cookies_SID. destruct (str_mem _ _); reflexivity.
Qed.

(** C9, as stated, fails: an [SID] cookie on the allow-listed domain
    .google.com whose value is the empty string passes the filter of
    [extract_cookies_from_storage], but [load_httpx_cookies] skips it and
    fails with the missing-cookie error. *)
Lemma download_filter_rejects_empty_SID :
  let st := {| storage_cookies :=
                 Some [{| cookie_domain := Some (str ".google.com");
                          cookie_name := Some (str "SID");
                          cookie_value := Some [] |}] |} in
  exact_domain (str ".google.com") /\
  extract_cookies_from_storage st = Return [(str "SID", [])] /\
  load_httpx_cookies_from st
    = Raise (ValueError (MissingRequiredCookiesForDownloads [str "SID"])) /\
  is_MissingCookieError
    (ValueError (MissingRequiredCookiesForDownloads [str "SID"])) = true.
Proof.
  split; [apply str_mem_elem_of; reflexivity|].
  repeat split; vm_compute; reflexivity.
Qed.

(** C9, amended: [extract_cookies_from_storage] fails, with the
    missing-cookie error, exactly when no cookie named [SID] is on a domain
    that equals a member of the allow-list, and succeeds whenever there is
    one, whatever its value, the empty string included.
    [load_httpx_cookies] fails, with the missing-cookie error, exactly when
    no cookie named [SID] with a non-empty value is on a domain that equals
    a member of the allow-list or ends with a dot-prefixed one, and
    succeeds whenever there is one. *)
Theorem missing_SID_cookie (st : storage_state) :
  let rpc_SID := exists c, c ∈ cookie_list st /\
                   exact_domain (domain_of c) /\ name_of c = str "SID" in
  let download_SID := exists c, c ∈ cookie_list st /\
                   (exact_domain (domain_of c) \/ dot_suffix_domain (domain_of c)) /\
                   name_of c = str "SID" /\ value_of c <> [] in
  (raises is_MissingCookieError (extract_cookies_from_storage st) <-> ~ rpc_SID) /\
  ((exists e, extract_cookies_from_storage st = Raise e) <-> ~ rpc_SID) /\
  ((exists cookies, extract_cookies_from_storage st = Return cookies) <-> rpc_SID) /\
  (raises is_MissingCookieError (load_httpx_cookies_from st) <-> ~ download_SID) /\
  ((exists e, load_httpx_cookies_from st = Raise e) <-> ~ download_SID) /\
  ((exists jar, load_httpx_cookies_from st = Return jar) <-> download_SID).
Proof.
  intros rpc_SID download_SID.
  pose proof (rpc_has_SID (cookie_list st)) as Hrpc. fold rpc_SID in Hrpc.
  pose proof (download_has_SID (cookie_list st)) as Hdl. fold download_SID in Hdl.
  rewrite extract_cookies_from_storage_cases, load_httpx_cookies_from_cases.
  unfold raises.
  destruct (str_mem _ (dict_keys _)); destruct (str_mem _ (_.2)).
  all: repeat split.
  all: try solve [ intros (e & [=] & _) | intros (e & [=]) | intros (e & [=] & _) ].
  all: try solve [ intros _; first [ apply Hrpc | apply Hdl ]; reflexivity ].
  all: try solve [ intros _; eexists; first [ reflexivity | split; reflexivity ] ].
  all: try solve [ intros Hn; exfalso; apply Hn;
                   first [ apply Hrpc | apply Hdl ]; reflexivity ].
  all: try solve [ intros _ H; first [ apply Hrpc in H | apply Hdl in H ];
                   discriminate H ].
  all: try solve [ intros H; first [ apply Hrpc in H | apply Hdl in H ];
                   discriminate H ].
Qed.

(** C1, as stated, fails: a cookie on lh3.google.com, a dot-qualified
    subdomain of the allow-listed .google.com, is not retained by
    [extract_cookies_from_storage], which compares domains for equality
    only. *)
Lemma rpc_filter_drops_subdomain_cookie :
  let st := {| storage_cookies :=
                 Some [mk_cookie ".google.com" "SID" "xyz";
                       mk_cookie "lh3.google.com" "NID" "abc"] |} in
  dot_suffix_domain (str "lh3.google.com") /\
  extract_cookies_from_storage st = Return [(str "SID", str "xyz")] /\
  dict_get [(str "SID", str "xyz")] (str "NID") = None.
Proof.
  split.
  - exists (str ".google.com"), (str "google.com"), (str "lh3").
    split; [apply str_mem_elem_of; reflexivity|]. split; reflexivity.
  - split; vm_compute; reflexivity.
Qed.

(** C1, amended: the two cookie filters differ.
    [extract_cookies_from_storage] retains exactly the entries whose domain
    equals a member of the allow-list and whose name is not empty;
    [load_httpx_cookies] retains exactly the entries whose domain equals a
    member of the allow-list or ends with a dot-prefixed member of it, and
    whose name and value are not empty.  The result of either maps a key
    (the name, or the domain and the name) to the value of the last
    retained entry with that key.  A cookie on evil-google.com is retained
    by neither filter; one on .google.com by both and one on lh3.google.com
    by the second only, given a name and, for the second, a value. *)
Theorem cookie_filters_retain :
  (forall d, _is_allowed_cookie_domain d = true <->
             exact_domain d \/ dot_suffix_domain d) /\
  (forall c, rpc_keeps c = true <->
             exact_domain (domain_of c) /\ name_of c <> []) /\
  (forall c, download_keeps c = true <->
             (exact_domain (domain_of c) \/ dot_suffix_domain (domain_of c)) /\
             name_of c <> [] /\ value_of c <> []) /\
  (forall st cookies,
     extract_cookies_from_storage st = Return cookies ->
     (forall n, dict_get cookies n = last_value (rpc_items (cookie_list st)) n) /\
     (forall n v, dict_get cookies n = Some v ->
        exists c, c ∈ cookie_list st /\ rpc_keeps c = true /\
                  name_of c = n /\ value_of c = v) /\
     (forall c, c ∈ cookie_list st -> rpc_keeps c = true ->
        is_Some (dict_get cookies (name_of c)))) /\
  (forall st jar,
     load_httpx_cookies_from st = Return jar ->
     (forall k, dict_get jar k = last_value (download_items (cookie_list st)) k) /\
     (forall d n v, dict_get jar (d, n) = Some v ->
        exists c, c ∈ cookie_list st /\ download_keeps c = true /\
                  domain_of c = d /\ name_of c = n /\ value_of c = v) /\
     (forall c, c ∈ cookie_list st -> download_keeps c = true ->
        is_Some (dict_get jar (domain_of c, name_of c)))) /\
  (forall c, domain_of c = str "evil-google.com" ->
     rpc_keeps c = false /\ download_keeps c = false) /\
  (forall c, domain_of c = str ".google.com" ->
     rpc_keeps c = str_truthy (name_of c) /\
     download_keeps c = str_truthy (name_of c) && str_truthy (value_of c)) /\
  (forall c, domain_of c = str "lh3.google.com" ->
     rpc_keeps c = false /\
     download_keeps c = str_truthy (name_of c) && str_truthy (value_of c)).
Proof.
  split; [exact _is_allowed_cookie_domain_spec|].
  split; [exact rpc_keeps_spec|].
  split; [exact download_keeps_spec|].
  split; [|split].
  - intros st cookies Hret. rewrite extract_cookies_from_storage_cases in Hret.
    destruct (str_mem _ _); [|discriminate Hret]. injection Hret as <-.
    rewrite extract_loop_items.
    assert (Hget : forall n, dict_get (dict_update [] (rpc_items (cookie_list st))) n
                             = last_value (rpc_items (cookie_list st)) n).
    { intros n. rewrite dict_get_update. destruct (last_value _ n); reflexivity. }
    split; [exact Hget|]. split.
    + intros n v Hv. rewrite Hget in Hv.
      apply last_value_elem_of, elem_of_rpc_items in Hv. exact Hv.
    + intros c Hc Hk. rewrite Hget. apply last_value_is_Some.
      exists (value_of c). apply elem_of_rpc_items. exists c. auto.
  - intros st jar Hret. rewrite load_httpx_cookies_from_cases in Hret.
    destruct (str_mem _ _); [|discriminate Hret]. injection Hret as <-.
    rewrite load_loop_items. cbn [fst].
    assert (Hget : forall k, dict_get (dict_update [] (download_items (cookie_list st))) k
                             = last_value (download_items (cookie_list st)) k).
    { intros k. rewrite dict_get_update. destruct (last_value _ k); reflexivity. }
    split; [exact Hget|]. split.
    + intros d n v Hv. rewrite Hget in Hv.
      apply last_value_elem_of, elem_of_download_items in Hv. exact Hv.
    + intros c Hc Hk. rewrite Hget. apply last_value_is_Some.
      exists (value_of c). apply elem_of_download_items. exists c. auto.
  - split; [|split]; intros c Hd; unfold rpc_keeps, download_keeps; rewrite Hd;
      split; reflexivity.
Qed.

(** [cookie_filters_retain] at a storage file with a session cookie on
    .google.com and a cookie on lh3.google.com: the first filter keeps the
    former under its name. *)
Lemma cookie_filters_retain_witness :
  dict_get [(str "SID", str "xyz")] (str "SID")
  = last_value
      (rpc_items [mk_cookie ".google.com" "SID" "xyz";
                  mk_cookie "lh3.google.com" "NID" "abc"])
      (str "SID").
Proof.
  refine (proj1 (proj1 (proj2 (proj2 (proj2 cookie_filters_retain)))
    {| storage_cookies :=
         Some [mk_cookie ".google.com" "SID" "xyz";
               mk_cookie "lh3.google.com" "NID" "abc"] |}
    [(str "SID", str "xyz")] _) (str "SID")).
  vm_compute. reflexivity.
Defined.

(** ** The source classifier *)

Lemma urlparse_raises_ValueError (rt : runtime) (url : pystr) (e : exn) :
  urllib.urlparse rt url = Raise e -> e = ValueError InvalidURL.
Proof.
  unfold urllib.urlparse, urllib.urlsplit.
  repeat match goal with
         | |- context [let '(_, _) := ?x in _] => destruct x
         | |- context [if ?b then _ else _] => destruct b
         end;
    congruence.
Qed.

(** The extractor returns stripped text only. *)
Lemma extracted_id_stripped (rt : runtime) (parsed : urllib.ParseResult)
    (hostname id : pystr) :
  _extract_video_id_from_parsed_url rt parsed hostname = Some id ->
  exists text, id = str_strip text.
Proof.
  unfold _extract_video_id_from_parsed_url.
  repeat match goal with
         | |- context [match ?x with _ => _ end] => destruct x
         end;
    intros [= <-]; eexists; reflexivity.
Qed.

Lemma re_match_video_id_stripped (text : pystr) :
  re_match_video_id (str_strip text) = true <->
  str_strip text <> [] /\ forallb is_video_id_char (str_strip text) = true.
Proof.
  unfold re_match_video_id.
  destruct (span_by is_video_id_char (str_strip text)) as [run rest] eqn:Hspan.
  apply span_by_split in Hspan as (Hid & Hrun & Hrest).
  rewrite andb_true_iff, orb_true_iff, str_truthy_nonempty, !str_eqb_eq.
  split.
  - intros [Hne [-> | ->]].
    + rewrite app_nil_r in Hid. rewrite Hid. split; assumption.
    + exfalso. unfold str_strip in Hid.
      apply rstrip_by_last in Hid. discriminate Hid.
  - intros [Hne Hall]. rewrite Hid in Hall, Hne.
    destruct rest as [|c rest].
    + rewrite app_nil_r in Hne. split; [exact Hne | left; reflexivity].
    + rewrite forallb_app in Hall. apply andb_true_iff in Hall as [_ Hall].
      simpl in Hall. rewrite Hrest in Hall. discriminate Hall.
Qed.

Lemma forallb_Forall_true {A} (f : A -> bool) (l : list A) :
  forallb f l = true <-> Forall (fun x => f x = true) l.
Proof.
  rewrite forallb_forall, Forall_forall. reflexivity.
Qed.

(** The format check on an extracted identifier. *)
Lemma valid_extracted_id (rt : runtime) (parsed : urllib.ParseResult)
    (hostname id : pystr) :
  _extract_video_id_from_parsed_url rt parsed hostname = Some id ->
  (str_truthy id && _is_valid_video_id id = true <->
   id <> [] /\ Forall (fun c => is_video_id_char c = true) id).
Proof.
  intros (text & ->)%extracted_id_stripped. unfold _is_valid_video_id.
  rewrite !andb_true_iff, re_match_video_id_stripped, str_truthy_nonempty,
    forallb_Forall_true. tauto.
Qed.

(** What [_parse_youtube_url] returns: it never raises, and it returns an
    identifier exactly when the URL parses, its host is a video host, and
    the extracted identifier has the right format. *)
Lemma _parse_youtube_url_spec (rt : runtime) (url : pystr) :
  exists r, _parse_youtube_url rt url = Return r /\
  forall id, r = Some id <->
    exists parsed,
      urllib.urlparse rt (str_strip url) = Return parsed /\
      str_lower rt (default [] (urllib.hostname rt parsed)) ∈ youtube_domains /\
      _extract_video_id_from_parsed_url rt parsed
        (str_lower rt (default [] (urllib.hostname rt parsed))) = Some id /\
      id <> [] /\ Forall (fun c => is_video_id_char c = true) id.
Proof.
  unfold _parse_youtube_url, _parse_youtube_url_try.
  destruct (urllib.urlparse rt (str_strip url)) as [parsed|e] eqn:Hparse.
  2:{ apply urlparse_raises_ValueError in Hparse as ->. exists None.
      split; [reflexivity|]. intros id. split; [discriminate|].
      intros (parsed & [=] & _). }
  set (hostname := str_lower rt (default [] (urllib.hostname rt parsed))).
  destruct (str_mem hostname youtube_domains) eqn:Hhost; simpl.
  2:{ exists None. split; [reflexivity|]. intros id. split; [discriminate|].
      intros (p & [= <-] & Hin & _). apply str_mem_elem_of in Hin.
      fold hostname in Hin. congruence. }
  apply str_mem_elem_of in Hhost.
  destruct (_extract_video_id_from_parsed_url rt parsed hostname)
    as [video_id|] eqn:Hext.
  2:{ exists None. split; [reflexivity|]. intros id. split; [discriminate|].
      intros (p & [= <-] & _ & Hid & _). fold hostname in Hid. congruence. }
  pose proof (valid_extracted_id rt parsed hostname video_id Hext) as Hvalid.
  destruct (str_truthy video_id && _is_valid_video_id video_id).
  - exists (Some video_id). split; [reflexivity|]. intros id. split.
    + intros [= <-]. exists parsed. fold hostname.
      destruct Hvalid as [Hvalid _]. specialize (Hvalid eq_refl).
      repeat split; tauto.
    + intros (p & [= <-] & _ & Hid & _). fold hostname in Hid. congruence.
  - exists None. split; [reflexivity|]. intros id. split; [discriminate|].
    intros (p & [= <-] & _ & Hid & Hne & Hall). fold hostname in Hid.
    assert (video_id = id) as -> by congruence.
    destruct Hvalid as [_ Hvalid]. discriminate Hvalid. split; assumption.
Qed.

Lemma classify_not_file (rt : runtime) (is_file : pystr -> result bool)
    (raw : pystr) (r : option pystr) :
  is_file raw = Return false ->
  _parse_youtube_url rt raw = Return r ->
  classify rt is_file raw =
  match r with
  | Some id => if str_truthy id then Return (VideoReference raw id)
               else Return (GenericUrl raw)
  | None => Return (GenericUrl raw)
  end.
Proof. intros Hfile Hr. unfold classify. rewrite Hfile, Hr. destruct r; reflexivity. Qed.




(** The extractor tells the hosts apart only as the short-link host and the
    others. *)
Lemma extract_same_for_youtube_com_hosts (rt : runtime)
    (parsed : urllib.ParseResult) (h1 h2 : pystr) :
  h1 ∈ youtube_com_hosts -> h2 ∈ youtube_com_hosts ->
  _extract_video_id_from_parsed_url rt parsed h1
  = _extract_video_id_from_parsed_url rt parsed h2.
Proof.
  unfold youtube_com_hosts. rewrite !elem_of_cons.
  intros [-> | [-> | [-> | [-> | H1]]]] [-> | [-> | [-> | [-> | H2]]]];
    first [ reflexivity | inversion H1 | inversion H2 ].
Qed.

(** C6: each of the four inputs, when it does not name an existing local
    file, is classified as a video reference with identifier [abc123]; the
    mobile and the music host give what the canonical host gives, and the
    extractor treats every youtube.com host alike. *)
Theorem classify_video_urls (rt : runtime) (is_file : pystr -> result bool) :
  let video := fun url =>
    classify rt is_file url = Return (VideoReference url (str "abc123")) in
  is_file (str "https://m.youtube.com/watch?v=abc123") = Return false ->
  is_file (str "https://youtu.be/abc123") = Return false ->
  is_file (str "https://www.youtube.com/shorts/abc123") = Return false ->
  is_file (str "https://music.youtube.com/watch?v=abc123") = Return false ->
  video (str "https://m.youtube.com/watch?v=abc123") /\
  video (str "https://youtu.be/abc123") /\
  video (str "https://www.youtube.com/shorts/abc123") /\
  video (str "https://music.youtube.com/watch?v=abc123") /\
  _parse_youtube_url rt (str "https://m.youtube.com/watch?v=abc123")
    = _parse_youtube_url rt (str "https://www.youtube.com/watch?v=abc123") /\
  _parse_youtube_url rt (str "https://music.youtube.com/watch?v=abc123")
    = _parse_youtube_url rt (str "https://www.youtube.com/watch?v=abc123") /\
  (forall parsed h1 h2,
     h1 ∈ youtube_com_hosts -> h2 ∈ youtube_com_hosts ->
     _extract_video_id_from_parsed_url rt parsed h1
     = _extract_video_id_from_parsed_url rt parsed h2).
Proof.
  intros video H1 H2 H3 H4. unfold video.
  split; [apply (classify_not_file rt is_file _ (Some (str "abc123")) H1);
          vm_compute; reflexivity|].
  split; [apply (classify_not_file rt is_file _ (Some (str "abc123")) H2);
          vm_compute; reflexivity|].
  split; [apply (classify_not_file rt is_file _ (Some (str "abc123")) H3);
          vm_compute; reflexivity|].
  split; [apply (classify_not_file rt is_file _ (Some (str "abc123")) H4);
          vm_compute; reflexivity|].
  split; [vm_compute; reflexivity|]. split; [vm_compute; reflexivity|].
  apply extract_same_for_youtube_com_hosts.
Qed.

(** [classify_video_urls] where no path names a file. *)
Lemma classify_video_urls_witness :
  classify ascii_runtime (fun _ => Return false) (str "https://youtu.be/abc123")
    = Return (VideoReference (str "https://youtu.be/abc123") (str "abc123")).
Proof.
  apply (proj1 (proj2 (classify_video_urls ascii_runtime (fun _ => Return false)
                         eq_refl eq_refl eq_refl eq_refl))).
Defined.

(** * Further properties of the code *)

(** ** Stripping *)

Lemma lstrip_by_all (f : N -> bool) (ws : pystr) :
  forallb f ws = true -> lstrip_by f ws = [].
Proof.
  intros H. rewrite <- (app_nil_r ws). rewrite (lstrip_by_app _ _ _ H). reflexivity.
Qed.

Lemma lstrip_by_app_r (f : N -> bool) (s t : pystr) :
  lstrip_by f (s ++ t) =
  match lstrip_by f s with
  | [] => lstrip_by f t
  | _ :: _ => lstrip_by f s ++ t
  end.
Proof.
  induction s as [|c s IH]; simpl; [destruct (lstrip_by f t); reflexivity|].
  destruct (f c); [exact IH | reflexivity].
Qed.

Lemma forallb_rev {A} (f : A -> bool) (l : list A) :
  forallb f (rev l) = forallb f l.
Proof.
  induction l as [|x l IH]; simpl; [reflexivity|].
  rewrite forallb_app, IH. simpl. rewrite andb_true_r. apply andb_comm.
Qed.

Lemma rstrip_by_app_ws (f : N -> bool) (t ws : pystr) :
  forallb f ws = true -> rstrip_by f (t ++ ws) = rstrip_by f t.
Proof.
  intros H. unfold rstrip_by. rewrite rev_app_distr, lstrip_by_app; [reflexivity|].
  rewrite forallb_rev. exact H.
Qed.

(** White space around a string does not change what [strip] returns. *)
Lemma str_strip_surrounded (ws s ws' : pystr) :
  forallb isspace ws = true -> forallb isspace ws' = true ->
  str_strip (ws ++ s ++ ws') = str_strip s.
Proof.
  intros Hws Hws'. unfold str_strip.
  rewrite (lstrip_by_app _ _ _ Hws), lstrip_by_app_r.
  destruct (lstrip_by isspace s) as [|c t] eqn:Hs.
  - rewrite (lstrip_by_all _ _ Hws'). reflexivity.
  - apply rstrip_by_app_ws, Hws'.
Qed.

(** ** The video identifier format *)

(** [_is_valid_video_id] accepts exactly the non-empty strings of letters,
    digits, hyphens and underscores, and those strings followed by one line
    feed: the [$] of the pattern also matches before a final line feed. *)
Theorem _is_valid_video_id_spec (video_id : pystr) :
  _is_valid_video_id video_id = true <->
  exists run,
    run <> [] /\ Forall (fun c => is_video_id_char c = true) run /\
    (video_id = run \/ video_id = run ++ [10]).
Proof.
  unfold _is_valid_video_id, re_match_video_id.
  destruct (span_by is_video_id_char video_id) as [run rest] eqn:Hspan.
  split.
  - apply span_by_split in Hspan as (-> & Hrun & _).
    rewrite !andb_true_iff, orb_true_iff, !str_eqb_eq, !str_truthy_nonempty.
    intros (_ & Hne & Hrest). exists run.
    split; [exact Hne|]. split; [apply forallb_Forall_true, Hrun|].
    destruct Hrest as [-> | ->]; [left; apply app_nil_r | right; reflexivity].
  - intros (run' & Hne & Hall & Hid). apply forallb_Forall_true in Hall.
    assert (Hspan' : span_by is_video_id_char video_id
                     = (run', if decide (video_id = run') then [] else [10])).
    { destruct Hid as [-> | ->].
      - rewrite decide_True by reflexivity.
        rewrite <- (app_nil_r run') at 1. apply span_by_app; [exact Hall | exact I].
      - rewrite decide_False.
        + apply span_by_app; [exact Hall | reflexivity].
        + intros H. apply (f_equal (@length N)) in H.
          rewrite length_app in H. simpl in H. lia. }
    rewrite Hspan' in Hspan. injection Hspan as <- <-.
    rewrite !andb_true_iff, orb_true_iff, !str_eqb_eq, !str_truthy_nonempty.
    split.
    + destruct Hid as [-> | ->]; [exact Hne|]. destruct run'; discriminate.
    + split; [exact Hne|]. destruct (decide (video_id = run')); auto.
Qed.

(** White space before and after a URL does not change the identifier
    [_parse_youtube_url] finds. *)
Theorem _parse_youtube_url_ignores_outer_space (rt : runtime)
    (ws url ws' : pystr) :
  forallb isspace ws = true -> forallb isspace ws' = true ->
  _parse_youtube_url rt (ws ++ url ++ ws') = _parse_youtube_url rt url.
Proof.
  intros Hws Hws'. unfold _parse_youtube_url, _parse_youtube_url_try.
  rewrite (str_strip_surrounded _ _ _ Hws Hws'). reflexivity.
Qed.

(** [_parse_youtube_url_ignores_outer_space] at a short link between two
    spaces and a line feed. *)
Lemma _parse_youtube_url_ignores_outer_space_witness :
  _parse_youtube_url ascii_runtime
    (str "  " ++ str "https://youtu.be/abc123" ++ [10])
  = _parse_youtube_url ascii_runtime (str "https://youtu.be/abc123").
Proof.
  apply (_parse_youtube_url_ignores_outer_space ascii_runtime
           (str "  ") (str "https://youtu.be/abc123") [10]); reflexivity.
Defined.

(** ** The allowed cookie domains *)

(** A domain is allowed for downloads exactly when it ends with
    [.google.com] or with [.googleusercontent.com]: the other entries of the
    allow-list and of the suffix list add nothing.  So a domain stays
    allowed when text is put in front of it. *)
Theorem _is_allowed_cookie_domain_suffixes :
  (forall d, _is_allowed_cookie_domain d = true <->
     (exists pre, d = pre ++ str ".google.com") \/
     (exists pre, d = pre ++ str ".googleusercontent.com")) /\
  (forall pre d, _is_allowed_cookie_domain d = true ->
     _is_allowed_cookie_domain (pre ++ d) = true).
Proof.
  assert (Hiff : forall d, _is_allowed_cookie_domain d = true <->
     (exists pre, d = pre ++ str ".google.com") \/
     (exists pre, d = pre ++ str ".googleusercontent.com")).
  { intros d. rewrite _is_allowed_cookie_domain_spec.
    unfold exact_domain, dot_suffix_domain, ALLOWED_COOKIE_DOMAINS. split.
    - intros [Hex | (a & rest & pre & Ha & Hdot & ->)].
      + rewrite !elem_of_cons in Hex.
        destruct Hex as [-> | [-> | [-> | Hex]]]; [| | |inversion Hex].
        * left. exists []. reflexivity.
        * left. exists (str "notebooklm"). reflexivity.
        * right. exists []. reflexivity.
      + rewrite !elem_of_cons in Ha.
        destruct Ha as [-> | [-> | [-> | Ha]]];
          [ | discriminate Hdot | | inversion Ha ].
        * left. exists pre. reflexivity.
        * right. exists pre. reflexivity.
    - intros [(pre & ->) | (pre & ->)]; right.
      + exists (str ".google.com"), (str "google.com"), pre.
        rewrite !elem_of_cons. auto.
      + exists (str ".googleusercontent.com"), (str "googleusercontent.com"), pre.
        rewrite !elem_of_cons. auto. }
  split; [exact Hiff|].
  intros pre d Hd. apply Hiff. apply Hiff in Hd.
  destruct Hd as [(p & ->) | (p & ->)]; [left | right]; exists (pre ++ p);
    apply app_assoc.
Qed.

(** [_is_allowed_cookie_domain_suffixes] at a subdomain of notebooklm. *)
Lemma _is_allowed_cookie_domain_suffixes_witness :
  _is_allowed_cookie_domain (str "x." ++ str "notebooklm.google.com") = true.
Proof.
  apply (proj2 _is_allowed_cookie_domain_suffixes (str "x.")
           (str "notebooklm.google.com")).
  reflexivity.
Defined.

(** ** The cookie filters, compared *)

(** Every entry that [extract_cookies_from_storage] retains and that has a
    value is retained by [load_httpx_cookies] too; so whenever the storage
    file has an [SID] cookie with a value on a domain of the allow-list,
    both loaders succeed. *)
Theorem rpc_filter_within_download_filter :
  (forall c, rpc_keeps c = true -> value_of c <> [] -> download_keeps c = true) /\
  (forall st,
     (exists c, c ∈ cookie_list st /\ exact_domain (domain_of c) /\
                name_of c = str "SID" /\ value_of c <> []) ->
     (exists cookies, extract_cookies_from_storage st = Return cookies) /\
     (exists jar, load_httpx_cookies_from st = Return jar)).
Proof.
  split.
  - intros c Hk Hv. apply rpc_keeps_spec in Hk as [Hd Hn].
    apply download_keeps_spec. auto.
  - intros st (c & Hc & Hd & Hn & Hv). split.
    + rewrite extract_cookies_from_storage_cases.
      replace (str_mem _ _) with true; [eexists; reflexivity|].
      symmetry. apply rpc_has_SID. exists c. auto.
    + rewrite load_httpx_cookies_from_cases.
      replace (str_mem _ _) with true; [eexists; reflexivity|].
      symmetry. apply download_has_SID. exists c. auto.
Qed.

(** [rpc_filter_within_download_filter] at a session cookie with a value
    on [.google.com]. *)
Lemma rpc_filter_within_download_filter_witness :
  download_keeps (mk_cookie ".google.com" "SID" "xyz") = true.
Proof.
  apply (proj1 rpc_filter_within_download_filter); [reflexivity | discriminate].
Defined.

(** ** The cookie dictionary *)

Section DictKeys.
Context {K V : Type} `{EqDecision K}.
Implicit Types (d : dict K V) (k : K) (v : V).

Lemma dict_keys_set_order d k v :
  dict_keys (dict_set d k v) =
  if decide (k ∈ dict_keys d) then dict_keys d else dict_keys d ++ [k].
Proof.
  unfold dict_keys. induction d as [|[k0 v0] d IH].
  - cbn [dict_set map fst app].
    destruct (decide (k ∈ [])) as [Hin|_]; [inversion Hin | reflexivity].
  - cbn [dict_set]. destruct (decide (k0 = k)) as [->|Hne]; cbn [map fst].
    + destruct (decide (k ∈ k :: map fst d)) as [_|Hnin]; [reflexivity|].
      contradiction Hnin. apply list_elem_of_here.
    + rewrite IH. destruct (decide (k ∈ map fst d)) as [Hin|Hnin];
        destruct (decide (k ∈ k0 :: map fst d)) as [Hin'|Hnin'];
        try reflexivity.
      * contradiction Hnin'. apply list_elem_of_further, Hin.
      * apply elem_of_cons in Hin' as [Heq|Hin']; [congruence | contradiction].
Qed.

Lemma dict_keys_update_order d (items : list (K * V)) :
  dict_keys (dict_update d items) =
  foldl (fun acc k => if decide (k ∈ acc) then acc else acc ++ [k])
        (dict_keys d) (map fst items).
Proof.
  revert d. induction items as [|[k v] items IH]; intros d; [reflexivity|].
  unfold dict_update in *. cbn [foldl map fst]. rewrite IH, dict_keys_set_order.
  reflexivity.
Qed.

Lemma first_occurrences_step_NoDup (acc : list K) (keys : list K) :
  NoDup acc ->
  NoDup (foldl (fun acc k => if decide (k ∈ acc) then acc else acc ++ [k])
               acc keys).
Proof.
  revert acc. induction keys as [|k keys IH]; intros acc Hacc; [exact Hacc|].
  cbn [foldl]. apply IH. destruct (decide (k ∈ acc)) as [Hin|Hnin]; [exact Hacc|].
  apply list.NoDup_app. split; [exact Hacc|]. split.
  - intros x Hx Hk. apply list_elem_of_singleton in Hk. subst x. contradiction.
  - apply NoDup_singleton.
Qed.
End DictKeys.

(** The dictionary [extract_cookies_from_storage] returns has the names of
    the retained entries as its keys, once each, in the order in which the
    names first occur in the storage file; no key is empty and [SID] is
    among them.  A name that occurs again keeps its place and takes the
    later value. *)
Theorem extract_cookies_keys (st : storage_state) (cookies : dict pystr pystr) :
  extract_cookies_from_storage st = Return cookies ->
  dict_keys cookies
    = first_occurrences (map name_of (filter rpc_keeps (cookie_list st))) /\
  NoDup (dict_keys cookies) /\
  str "SID" ∈ dict_keys cookies /\
  (forall k, k ∈ dict_keys cookies -> k <> []).
Proof.
  intros Hret. rewrite extract_cookies_from_storage_cases in Hret.
  destruct (str_mem _ _) eqn:Hsid; [|discriminate Hret]. injection Hret as <-.
  apply str_mem_elem_of in Hsid.
  assert (Hkeys : dict_keys (foldl extract_cookie_step [] (cookie_list st))
                  = first_occurrences
                      (map name_of (filter rpc_keeps (cookie_list st)))).
  { rewrite extract_loop_items, dict_keys_update_order. unfold rpc_items.
    rewrite map_map. reflexivity. }
  split; [exact Hkeys|]. split; [|split; [exact Hsid|]].
  - rewrite Hkeys. apply first_occurrences_step_NoDup, NoDup_nil_2.
  - intros k Hk. rewrite extract_loop_items in Hk.
    apply dict_keys_update in Hk as [Hk | Hk]; [inversion Hk|].
    apply list_elem_of_fmap in Hk as ([n v] & -> & Hin).
    apply elem_of_rpc_items in Hin as (c & _ & Hkeep & <- & _).
    apply rpc_keeps_spec in Hkeep as [_ Hn]. exact Hn.
Qed.

(** [extract_cookies_keys] at a storage file in which [SID] occurs twice,
    around another cookie: [SID] stays first. *)
Lemma extract_cookies_keys_witness :
  dict_keys [(str "SID", str "new"); (str "HSID", str "h")]
  = first_occurrences
      (map name_of
         (filter rpc_keeps
            [mk_cookie ".google.com" "SID" "old";
             mk_cookie ".google.com" "HSID" "h";
             mk_cookie "notebooklm.google.com" "SID" "new"])).
Proof.
  refine (proj1 (extract_cookies_keys
    {| storage_cookies :=
         Some [mk_cookie ".google.com" "SID" "old";
               mk_cookie ".google.com" "HSID" "h";
               mk_cookie "notebooklm.google.com" "SID" "new"] |}
    [(str "SID", str "new"); (str "HSID", str "h")] _)).
  vm_compute. reflexivity.
Defined.

(** ** The token search *)

Lemma token_at_functional (key s v v' : pystr) :
  token_at key s v -> token_at key s v' -> v = v'.
Proof.
  intros H H'. apply match_token_here_spec in H, H'. congruence.
Qed.

(** [re.search] finds the pattern where it matches first. *)
Lemma re_search_token_first (key html value : pystr) :
  re_search_token key html = Some value <->
  exists pre, first_token key html pre value.
Proof.
  unfold first_token. split.
  - revert value. induction html as [|c html IH]; intros value;
      cbn [re_search_token].
    + destruct (match_token_here key []) as [v|] eqn:Hhere; [|discriminate].
      intros [= ->]. exists [], []. split; [reflexivity|].
      split; [apply match_token_here_spec, Hhere|].
      intros pre' s' v' _ Hlen. simpl in Hlen. lia.
    + destruct (match_token_here key (c :: html)) as [v|] eqn:Hhere.
      * intros [= ->]. exists [], (c :: html). split; [reflexivity|].
        split; [apply match_token_here_spec, Hhere|].
        intros pre' s' v' _ Hlen. simpl in Hlen. lia.
      * intros (pre & s & -> & Hat & Hfirst)%IH.
        exists (c :: pre), s. split; [reflexivity|]. split; [exact Hat|].
        intros [|d pre'] s' v' Hs Hlen Hat'.
        -- simpl in Hs. subst s'. apply match_token_here_spec in Hat'. congruence.
        -- injection Hs as -> Hs. apply (Hfirst pre' s' v' Hs); [|exact Hat'].
           simpl in Hlen. lia.
  - intros (pre & s & Hs & Hat & Hfirst). revert html Hs Hfirst.
    induction pre as [|c pre IH]; intros html Hs Hfirst.
    + simpl in Hs. subst html. apply match_token_here_spec in Hat.
      destruct s; cbn [re_search_token]; rewrite Hat; reflexivity.
    + subst html. cbn [app re_search_token].
      destruct (match_token_here key (c :: pre ++ s)) as [v|] eqn:Hhere.
      * exfalso. apply (Hfirst [] (c :: pre ++ s) v); [reflexivity | simpl; lia|].
        apply match_token_here_spec, Hhere.
      * apply IH; [reflexivity|]. intros pre' s' v' Hs' Hlen.
        apply (Hfirst (c :: pre') s' v'); [simpl; congruence | simpl; lia].
Qed.

(** A token extractor returns a value exactly when its pattern occurs in
    the HTML, and then the value of the first occurrence, whatever the
    final URL; the value is not empty and has no double quote. *)
Theorem extractors_return_first_token (html final_url : pystr) :
  (forall token,
     extract_csrf_from_html html final_url = Return token <->
     exists pre, first_token (str "SNlM0e") html pre token) /\
  (forall sid,
     extract_session_id_from_html html final_url = Return sid <->
     exists pre, first_token (str "FdrFJe") html pre sid) /\
  (forall token, extract_csrf_from_html html final_url = Return token ->
     token <> [] /\ dquote ∉ token) /\
  (forall sid, extract_session_id_from_html html final_url = Return sid ->
     sid <> [] /\ dquote ∉ sid).
Proof.
  assert (Hc : forall token,
            extract_csrf_from_html html final_url = Return token <->
            re_search_token (str "SNlM0e") html = Some token).
  { intros token. unfold extract_csrf_from_html.
    destruct (re_search_token _ html) as [t|].
    - split; intros H; congruence.
    - destruct (_ || _); split; discriminate. }
  assert (Hs : forall sid,
            extract_session_id_from_html html final_url = Return sid <->
            re_search_token (str "FdrFJe") html = Some sid).
  { intros sid. unfold extract_session_id_from_html.
    destruct (re_search_token (str "FdrFJe") html) as [t|].
    - split; intros H; congruence.
    - destruct (_ || _); split; discriminate. }
  assert (Hvalue : forall key v,
            re_search_token key html = Some v -> v <> [] /\ dquote ∉ v).
  { intros key v (pre & s & _ & Hat)%re_search_token_some.
    destruct Hat as (ws1 & ws2 & post & _ & _ & _ & Hne & Hq). auto. }
  split; [intros token; etransitivity; [apply Hc | apply re_search_token_first]|].
  split; [intros sid; etransitivity; [apply Hs | apply re_search_token_first]|].
  split.
  - intros token Ht. apply Hc in Ht. eapply Hvalue, Ht.
  - intros sid Ht. apply Hs in Ht. eapply Hvalue, Ht.
Qed.

(** [extractors_return_first_token] at a page with a token. *)
Lemma extractors_return_first_token_witness :
  str "TOKEN1" <> [] /\ dquote ∉ str "TOKEN1".
Proof.
  apply (proj1 (proj2 (proj2 (extractors_return_first_token
           (str "x" ++ [dquote] ++ str "SNlM0e" ++ [dquote] ++ str " : "
            ++ [dquote] ++ str "TOKEN1" ++ [dquote] ++ str ",")
           [])))).
  vm_compute. reflexivity.
Defined.

(** ** Acquiring the tokens *)

Lemma extract_csrf_returns (html final_url token : pystr) :
  extract_csrf_from_html html final_url = Return token <->
  re_search_token (str "SNlM0e") html = Some token.
Proof.
  unfold extract_csrf_from_html.
  destruct (re_search_token (str "SNlM0e") html) as [t|].
  - split; intros H; congruence.
  - destruct (_ || _); split; discriminate.
Qed.

Lemma extract_session_id_returns (html final_url sid : pystr) :
  extract_session_id_from_html html final_url = Return sid <->
  re_search_token (str "FdrFJe") html = Some sid.
Proof.
  unfold extract_session_id_from_html.
  destruct (re_search_token (str "FdrFJe") html) as [t|].
  - split; intros H; congruence.
  - destruct (_ || _); split; discriminate.
Qed.

Lemma re_search_token_value (key html value : pystr) :
  re_search_token key html = Some value -> value <> [] /\ dquote ∉ value.
Proof.
  intros (pre & s & _ & Hat)%re_search_token_some.
  destruct Hat as (ws1 & ws2 & post & _ & _ & _ & Hne & Hq). auto.
Qed.

(** When [AuthTokens.from_storage] returns, its result holds the cookies of
    the storage file with [SID] among them and two tokens that are not
    empty, each the first occurrence of its pattern in the landing page; it
    made exactly one request, a GET of the landing page that follows
    redirects and whose [Cookie] header is the [cookie_header] of the
    result, and the response had a success status and a final URL without
    accounts.google.com. *)
Theorem from_storage_returns (w : world) (path : option pystr)
    (auth : AuthTokens) :
  outcome (from_storage w path) = Return auth ->
  load_auth_from_storage w path = Return (cookies auth) /\
  str "SID" ∈ dict_keys (cookies auth) /\
  csrf_token auth <> [] /\ session_id auth <> [] /\
  events (from_storage w path)
    = [HttpGet homepage [(str "Cookie", cookie_header auth)] true 30] /\
  exists r,
    http w [] (landing_request (cookies auth)) = HttpResponse r /\
    is_success r = true /\
    ~ occurs_in login_domain (response_url r) /\
    (exists pre, first_token (str "SNlM0e") (response_text r) pre (csrf_token auth)) /\
    (exists pre, first_token (str "FdrFJe") (response_text r) pre (session_id auth)).
Proof.
  unfold outcome, events. rewrite from_storage_run.
  destruct (load_auth_from_storage w path) as [cookies0|e] eqn:Hload;
    [|discriminate]. cbn [fst snd].
  destruct (fetch_tokens_cases w cookies0) as [Hev Hout].
  destruct (outcome (fetch_tokens w cookies0)) as [[csrf sid]|e] eqn:Hfetch;
    [|discriminate].
  intros [= <-]. cbn [cookies csrf_token session_id fst snd].
  destruct (http w [] (landing_request cookies0)) as [r|detail]; [|discriminate Hout].
  destruct (is_success r) eqn:Hok; [|discriminate Hout].
  destruct (str_contains login_domain (response_url r)) eqn:Hurl;
    [discriminate Hout|].
  destruct (extract_csrf_from_html _ _) as [csrf'|e1] eqn:Hcsrf;
    [|discriminate Hout].
  destruct (extract_session_id_from_html _ _) as [sid'|e2] eqn:Hsid;
    [|discriminate Hout].
  injection Hout as -> ->.
  apply extract_csrf_returns in Hcsrf. apply extract_session_id_returns in Hsid.
  split; [reflexivity|]. split.
  { unfold load_auth_from_storage in Hload.
    destruct (read_storage_state w path) as [st|e]; [|discriminate Hload].
    rewrite extract_cookies_from_storage_cases in Hload.
    destruct (str_mem _ _) eqn:Hmem; [|discriminate Hload].
    injection Hload as <-. apply str_mem_elem_of, Hmem. }
  split; [apply (re_search_token_value _ _ _ Hcsrf)|].
  split; [apply (re_search_token_value _ _ _ Hsid)|].
  split; [exact Hev|].
  exists r. split; [reflexivity|]. split; [exact Hok|].
  split; [apply str_contains_not_occurs, Hurl|].
  split; apply re_search_token_first; assumption.
Qed.

(** When the cookies cannot be loaded, [AuthTokens.from_storage] ends with
    the error of the loader and makes no request; whenever it makes a
    request, the loader has returned cookies with [SID] among them, and the
    request is the one landing request with these cookies.  When nothing is
    at the storage path, which is the path given or
    [~/.notebooklm/storage_state.json] without one, both loaders raise
    [FileNotFoundError] for that path; when the lookup of the path itself
    fails, both end with the [OSError] of the lookup instead. *)
Theorem from_storage_without_cookies (w : world) (path : option pystr) :
  let storage_path := default (home w ++ str "/.notebooklm/storage_state.json") path in
  (forall e, load_auth_from_storage w path = Raise e ->
     events (from_storage w path) = [] /\
     outcome (from_storage w path) = Raise e) /\
  (events (from_storage w path) <> [] ->
   exists cookies,
     load_auth_from_storage w path = Return cookies /\
     str "SID" ∈ dict_keys cookies /\
     events (from_storage w path) = [landing_request cookies]) /\
  (fs w storage_path = Missing ->
   load_auth_from_storage w path = Raise (FileNotFoundError storage_path) /\
   load_httpx_cookies w path = Raise (FileNotFoundError storage_path)) /\
  (fs w storage_path = Refused ->
   load_auth_from_storage w path = Raise (ReadError OSError) /\
   load_httpx_cookies w path = Raise (ReadError OSError)).
Proof.
  intros storage_path. split; [|split; [|split]].
  - intros e Hload. unfold events, outcome. rewrite from_storage_run, Hload.
    split; reflexivity.
  - assert (Hev : events (from_storage w path) =
                    match load_auth_from_storage w path with
                    | Return cookies => events (fetch_tokens w cookies)
                    | Raise _ => []
                    end).
    { unfold events at 1. rewrite from_storage_run.
      destruct (load_auth_from_storage w path); reflexivity. }
    rewrite Hev.
    destruct (load_auth_from_storage w path) as [cookies0|e] eqn:Hload;
      [|intros H; contradiction H; reflexivity].
    intros _. exists cookies0. split; [reflexivity|]. split.
    + unfold load_auth_from_storage in Hload.
      destruct (read_storage_state w path) as [st|e]; [|discriminate Hload].
      rewrite extract_cookies_from_storage_cases in Hload.
      destruct (str_mem _ _) eqn:Hmem; [|discriminate Hload].
      injection Hload as <-. apply str_mem_elem_of, Hmem.
    + apply fetch_tokens_cases.
  - intros Hnone.
    unfold load_auth_from_storage, load_httpx_cookies, read_storage_state,
      path_exists.
    change (default (DEFAULT_STORAGE_PATH w) path) with storage_path.
    rewrite Hnone. split; reflexivity.
  - intros Hrefused.
    unfold load_auth_from_storage, load_httpx_cookies, read_storage_state,
      path_exists.
    change (default (DEFAULT_STORAGE_PATH w) path) with storage_path.
    rewrite Hrefused. split; reflexivity.
Qed.

(** [from_storage_returns] in a world where acquisition succeeds. *)
Lemma from_storage_returns_witness :
  events (from_storage signed_in_world None)
  = [HttpGet homepage [(str "Cookie", str "SID=xyz")] true 30].
Proof.
  refine (proj1 (proj2 (proj2 (proj2 (proj2
    (from_storage_returns signed_in_world None
       {| cookies := [(str "SID", str "xyz")];
          csrf_token := str "TOKEN1"; session_id := str "TOKEN2" |} _)))))).
  vm_compute. reflexivity.
Defined.

(** [from_storage_without_cookies] in a world without files. *)
Lemma from_storage_without_cookies_witness :
  load_auth_from_storage offline_world None
  = Raise (FileNotFoundError (str "/home/user/.notebooklm/storage_state.json")).
Proof.
  refine (proj1 (proj1 (proj2 (proj2
            (from_storage_without_cookies offline_world None))) _)).
  reflexivity.
Defined.

(** ** The chunks of a file *)

Section ChunkSlices.
Variable n : nat.
Hypothesis n_positive : (0 < n)%nat.

Lemma read_chunks_length (data : list Byte.byte) :
  length (read_chunks n data) = ((length data + n - 1) / n)%nat.
Proof.
  funelim (read_chunks n data).
  - match goal with E : take n data = [] |- _ =>
      rewrite (take_nil_inv n n_positive _ E) end.
    simpl. symmetry. apply Nat.div_small. lia.
  - cbn [length].
    match goal with IH : length _ = _ |- _ => rewrite IH end.
    rewrite length_drop.
    assert (Hdata : (0 < length data)%nat).
    { destruct data; [|simpl; lia].
      exfalso. match goal with E : take n [] = _ :: _ |- _ =>
        pose proof E as E'; rewrite take_nil in E'; discriminate E' end. }
    destruct (decide (n <= length data)%nat) as [Hle|Hgt].
    + replace (length data + n - 1)%nat with ((length data - n + n - 1) + 1 * n)%nat by lia.
      rewrite Nat.div_add by lia. lia.
    + replace (length data - n + n - 1)%nat with (n - 1)%nat by lia.
      rewrite (Nat.div_small (n - 1)) by lia.
      replace (length data + n - 1)%nat with ((length data - 1) + 1 * n)%nat by lia.
      rewrite Nat.div_add by lia. rewrite Nat.div_small by lia. reflexivity.
Qed.

Lemma read_chunks_lookup (data : list Byte.byte) (i : nat) :
  read_chunks n data !! i =
  if decide (i * n < length data)%nat
  then Some (take n (drop (i * n) data)) else None.
Proof.
  revert i. funelim (read_chunks n data); intros i.
  - match goal with E : take n data = [] |- _ =>
      rewrite (take_nil_inv n n_positive _ E) end.
    rewrite decide_False by (simpl; lia). reflexivity.
  - assert (Hdata : (0 < length data)%nat).
    { destruct data; [|simpl; lia].
      exfalso. match goal with E : take n [] = _ :: _ |- _ =>
        pose proof E as E'; rewrite take_nil in E'; discriminate E' end. }
    destruct i as [|i].
    + rewrite decide_True by lia.
      change (((b :: chunk) :: read_chunks n (drop n data)) !! 0%nat)
        with (Some (b :: chunk)).
      simpl. f_equal. symmetry. assumption.
    + change (((b :: chunk) :: read_chunks n (drop n data)) !! S i)
        with (read_chunks n (drop n data) !! i).
      match goal with
      | IH : context [read_chunks n (drop n data) !! _] |- _ => rewrite (IH i)
      end.
      rewrite length_drop, drop_drop.
      replace (n + i * n)%nat with (S i * n)%nat by lia.
      destruct (decide (i * n < length data - n)%nat);
        destruct (decide (S i * n < length data)%nat); try reflexivity; lia.
Qed.
End ChunkSlices.

(** The body of the transfer has one chunk for every started 64 KiB of the
    file, none for an empty file, and chunk [i] is the 64 KiB of the file
    at offset [i * 65536], or what is left of the file there. *)
Theorem file_stream_slices (data : list Byte.byte) :
  N.of_nat (length (file_stream data)) = (N.of_nat (length data) + 65535) / 65536 /\
  (data = [] <-> file_stream data = []) /\
  (forall i,
     file_stream data !! i =
     if decide (N.of_nat i * 65536 < N.of_nat (length data))
     then Some (take CHUNK_SIZE (drop (i * CHUNK_SIZE) data)) else None).
Proof.
  pose proof CHUNK_SIZE_positive as Hpos.
  pose proof CHUNK_SIZE_bytes as Hbytes.
  unfold file_stream. split; [|split].
  - rewrite (read_chunks_length _ Hpos).
    rewrite Nat2N.inj_div, Nat2N.inj_sub, Nat2N.inj_add, Hbytes. f_equal. lia.
  - split.
    + intros ->. apply (read_chunks_nil _ Hpos).
    + intros Hnil. pose proof (read_chunks_concat _ Hpos data) as Hcat.
      rewrite Hnil in Hcat. symmetry. exact Hcat.
  - intros i. rewrite (read_chunks_lookup _ Hpos).
    destruct (decide (i * CHUNK_SIZE < length data)%nat);
      destruct (decide (N.of_nat i * 65536 < N.of_nat (length data)));
      try reflexivity; lia.
Qed.

(** ** The phases of an upload, one by one *)

(** [_register_file_source] makes one remote call.  It returns exactly when
    the reply is a non-empty list in which the first element, followed
    through first elements, ends in a non-empty string, and returns that
    string; a reply that is itself a string, [None], an empty list or a
    mapping makes it raise [SourceAddError] for the file name, and a
    failing call ends it with the error of the call. *)
Theorem _register_file_source_spec (w : world) (notebook_id filename : pystr)
    (log : list event) :
  let req := register_request notebook_id filename in
  let run := _register_file_source w notebook_id filename log in
  run.1 = log ++ [req] /\
  (forall sid,
     run.2 = Return sid <->
     exists first rest,
       rpc w log req = RpcReply (PList (first :: rest)) /\
       extract_id first = PStr sid /\ sid <> []) /\
  (forall detail, rpc w log req = RpcRaises detail ->
     run.2 = Raise (RPCError detail)) /\
  (forall reply, rpc w log req = RpcReply reply ->
     is_list reply = false \/ reply = PList [] ->
     run.2 = Raise (registration_failed filename)).
Proof.
  intros req run. unfold run, _register_file_source, bind, rpc_call.
  fold (register_request notebook_id filename). fold req.
  destruct (rpc w log req) as [reply|detail]; cbn [fst snd].
  2:{ split; [reflexivity|]. split.
      - intros sid. split; [discriminate|]. intros (f & r & [=] & _).
      - split; [intros d [= <-]; reflexivity | intros reply [=]]. }
  assert (Hrun :
    (if py_truthy reply && is_list reply
     then match extract_id reply with
          | PStr source_id =>
              if str_truthy source_id then ret source_id
              else raise (registration_failed filename)
          | _ => raise (registration_failed filename)
          end
     else raise (registration_failed filename)) (log ++ [req])
    = (log ++ [req],
       match registered_id reply with
       | Some sid => Return sid
       | None => Raise (registration_failed filename)
       end)).
  { unfold registered_id. destruct (py_truthy reply && is_list reply);
      [|reflexivity].
    destruct (extract_id reply) as [ | | | | s | | ]; try reflexivity.
    destruct (str_truthy s); reflexivity. }
  fold (registration_failed filename). rewrite Hrun. cbn [fst snd].
  split; [reflexivity|]. split; [|split].
  - intros sid. destruct (registered_id reply) as [sid'|] eqn:Hid.
    + apply registered_id_spec in Hid as (Hlist & Hext & Hne).
      destruct reply as [ | | | | | [|first rest] | ]; try discriminate Hlist.
      split.
      * intros [= <-]. exists first, rest. auto.
      * intros (f & r & [= <- <-] & Hext' & _). simpl in Hext. congruence.
    + split; [discriminate|]. intros (f & r & [= ->] & Hext & Hne). exfalso.
      assert (registered_id (PList (f :: r)) = Some sid) as Hsome
        by (apply registered_id_spec; auto).
      congruence.
  - intros d [=].
  - intros reply' [= <-] Hbad.
    destruct (registered_id reply) as [sid|] eqn:Hid; [|reflexivity].
    apply registered_id_spec in Hid as (Hlist & _).
    destruct Hbad as [Hnl | ->]; [|discriminate Hlist].
    destruct reply as [ | | | | | [|first rest] | ]; discriminate.
Qed.

(** [_start_resumable_upload] makes one POST to the upload endpoint, which
    announces the size of the file in the header
    [x-goog-upload-header-content-length].  It returns exactly when the
    response has a success status and a non-empty header
    [x-goog-upload-url], and returns that header; it never returns an empty
    URL.  Without the header it raises [SourceAddError] for the file name;
    a response with another status ends it with the HTTP status error. *)
Theorem _start_resumable_upload_spec (w : world) (auth : AuthTokens)
    (notebook_id filename : pystr) (file_size : N) (source_id : pystr)
    (log : list event) :
  let req := negotiate_request auth notebook_id filename file_size source_id in
  let run := _start_resumable_upload w auth notebook_id filename file_size
               source_id log in
  run.1 = log ++ [req] /\
  (exists headers body timeout,
     req = HttpPost (UPLOAD_URL ++ str "?authuser=0") headers body timeout /\
     dict_get headers (str "x-goog-upload-header-content-length")
       = Some (str_of_N file_size) /\
     dict_get headers (str "x-goog-upload-command") = Some (str "start")) /\
  (forall url,
     run.2 = Return url <->
     exists r, http w log req = HttpResponse r /\ is_success r = true /\
               dict_get (response_headers r) (str "x-goog-upload-url") = Some url /\
               url <> []) /\
  (forall r, http w log req = HttpResponse r -> is_success r = false ->
     run.2 = Raise (HTTPError (HTTPStatusError (status_code r)))) /\
  (forall r, http w log req = HttpResponse r -> is_success r = true ->
     negotiated_url r = None ->
     run.2 = Raise (SourceAddError filename
                      (str "Failed to get upload URL from response headers"))).
Proof.
  intros req run.
  assert (Hrun : run =
    (log ++ [req],
     match http w log req with
     | HttpRaises detail => Raise (HTTPError (TransportError detail))
     | HttpResponse r =>
         if is_success r then
           match negotiated_url r with
           | Some url => Return url
           | None => Raise (SourceAddError filename
                       (str "Failed to get upload URL from response headers"))
           end
         else Raise (HTTPError (HTTPStatusError (status_code r)))
     end)).
  { unfold run, _start_resumable_upload, bind, http_request, raise_for_status.
    fold (negotiate_request auth notebook_id filename file_size source_id).
    fold req. destruct (http w log req) as [r|detail]; [|reflexivity].
    destruct (is_success r); [|reflexivity].
    unfold ret at 1. unfold negotiated_url.
    destruct (dict_get (response_headers r) (str "x-goog-upload-url"))
      as [url|]; [|reflexivity].
    destruct (str_truthy url); reflexivity. }
  rewrite Hrun. cbn [fst snd].
  split; [reflexivity|]. split.
  { eexists _, _, _. split; [reflexivity|]. split; reflexivity. }
  split; [|split].
  - intros url. destruct (http w log req) as [r|detail].
    2:{ split; [discriminate | intros (r & [=] & _)]. }
    destruct (is_success r) eqn:Hok.
    2:{ split; [discriminate|]. intros (r' & [= <-] & Hok' & _). congruence. }
    unfold negotiated_url.
    destruct (dict_get (response_headers r) (str "x-goog-upload-url"))
      as [u|] eqn:Hget.
    2:{ split; [discriminate|]. intros (r' & [= <-] & _ & Hget' & _). congruence. }
    destruct (str_truthy u) eqn:Hu.
    + apply str_truthy_nonempty in Hu. split.
      * intros [= <-]. exists r. auto.
      * intros (r' & [= <-] & _ & Hget' & _). congruence.
    + split; [discriminate|]. intros (r' & [= <-] & _ & Hget' & Hne).
      apply str_truthy_nonempty in Hne. congruence.
  - intros r -> ->. reflexivity.
  - intros r -> -> ->. reflexivity.
Qed.

(** [_start_resumable_upload_spec] at a response without the upload URL. *)
Lemma _start_resumable_upload_spec_witness :
  (_start_resumable_upload signed_in_world no_auth (str "nb-1")
     (str "notes.txt") 2 (str "src-7") []).2
  = Raise (SourceAddError (str "notes.txt")
             (str "Failed to get upload URL from response headers")).
Proof.
  refine (proj2 (proj2 (proj2 (proj2
    (_start_resumable_upload_spec signed_in_world no_auth (str "nb-1")
       (str "notes.txt") 2 (str "src-7") []))))
    {| status_code := 200; response_url := homepage; response_headers := [];
       response_text := _ |} _ _ _); reflexivity.
Defined.

(** [_register_file_source_spec] at a reply that is a bare string, not a
    list. *)
Lemma _register_file_source_spec_witness :
  (_register_file_source
     {| home := []; fs := fun _ => Missing;
        loads_storage_state := fun _ => inl JSONDecodeError;
        rpc := fun _ _ => RpcReply (PStr (str "src-7"));
        http := fun _ _ => HttpRaises [] |}
     (str "nb-1") (str "notes.txt") []).2
  = Raise (registration_failed (str "notes.txt")).
Proof.
  refine (proj2 (proj2 (proj2
    (_register_file_source_spec _ (str "nb-1") (str "notes.txt") [])))
    (PStr (str "src-7")) _ _).
  - reflexivity.
  - left. reflexivity.
Defined.

(** ** What an add sends *)



(** The events of an add of a regular file, whatever its outcome. *)
Lemma add_file_events (rt : runtime) (w : world) (auth : AuthTokens)
    (notebook_id path : pystr) (size : N) (bytes : option (list Byte.byte)) :
  fs w path = Found (RegularFile size bytes) ->
  let reg := register_request notebook_id (path_name path) in
  let neg := negotiate_request auth notebook_id (path_name path) size in
  let xfer := fun url =>
    HttpPost url (upload_headers auth) (transfer_body bytes) 300 in
  events (add rt w auth notebook_id path) = [reg] \/
  (exists sid, events (add rt w auth notebook_id path) = [reg; neg sid]) \/
  (exists sid url,
     events (add rt w auth notebook_id path) = [reg; neg sid; xfer url]).
Proof.
  intros Hfile reg neg xfer.
  pose proof (add_regular_file_run rt w auth notebook_id path size bytes Hfile)
    as Hrun.
  cbv zeta in Hrun. fold reg neg xfer in Hrun. unfold events. rewrite Hrun.
  destruct (rpc w [] reg) as [reply|detail]; [|left; reflexivity].
  destruct (registered_id reply) as [sid|]; [|left; reflexivity].
  destruct (http w [reg] (neg sid)) as [r1|detail];
    [|right; left; exists sid; reflexivity].
  destruct (is_success r1); [|right; left; exists sid; reflexivity].
  destruct (negotiated_url r1) as [url|];
    [|right; left; exists sid; reflexivity].
  right. right. exists sid, url. reflexivity.
Qed.




(** In an add of a local file, every session-start request announces, in
    [x-goog-upload-header-content-length], the size that [stat] reports for
    the file, in decimal, and the chunks of every transfer request are the
    bytes that reading the file delivers.  The two are taken apart from
    each other, so the announced size is the number of bytes sent exactly
    when the size of [stat] is the number of bytes read. *)
Theorem add_announces_what_it_sends (rt : runtime) (w : world)
    (auth : AuthTokens) (notebook_id path : pystr) (size : N)
    (data : list Byte.byte) :
  fs w path = Found (RegularFile size (Some data)) ->
  forall ev, ev ∈ events (add rt w auth notebook_id path) ->
    match ev with
    | HttpPost _ headers (JsonDumps _) _ =>
        dict_get headers (str "x-goog-upload-header-content-length")
          = Some (str_of_N size)
    | HttpPost _ _ (Stream chunks) _ =>
        concat chunks = data /\
        (N.of_nat (length (concat chunks)) = size <->
         N.of_nat (length data) = size)
    | HttpPost _ _ FailingStream _ => False
    | _ => True
    end.
Proof.
  intros Hfile ev Hev.
  destruct (add_file_events rt w auth notebook_id path size (Some data) Hfile)
    as [H | [(sid & H) | (sid & url & H)]]; rewrite H in Hev;
    repeat (apply elem_of_cons in Hev as [-> | Hev]);
    try (inversion Hev; fail);
    try exact I; try reflexivity.
  cbn [transfer_body]. unfold file_stream.
  rewrite (read_chunks_concat _ CHUNK_SIZE_positive). split; reflexivity.
Qed.

(** [add_announces_what_it_sends] at the transfer request of a successful
    upload of a file of procfs: the session start announced the size 0, and
    the transfer sends the two bytes that the read delivered. *)
Lemma add_announces_what_it_sends_witness :
  outcome (add ascii_runtime procfs_world no_auth (str "nb-1")
             (str "/proc/version")) = Return (str "src-7") /\
  dict_get (start_headers no_auth 0) (str "x-goog-upload-header-content-length")
    = Some (str "0") /\
  concat (file_stream [Byte.x68; Byte.x69]) = [Byte.x68; Byte.x69].
Proof.
  assert (Hev : events (add ascii_runtime procfs_world no_auth (str "nb-1")
                          (str "/proc/version")) =
      [register_request (str "nb-1") (str "version");
       negotiate_request no_auth (str "nb-1") (str "version") 0 (str "src-7");
       HttpPost (str "https://upload.notebooklm.google.com/session/1")
         (upload_headers no_auth) (Stream (file_stream [Byte.x68; Byte.x69])) 300])
    by (vm_compute; reflexivity).
  split; [vm_compute; reflexivity|]. split.
  - refine (add_announces_what_it_sends ascii_runtime procfs_world no_auth
              (str "nb-1") (str "/proc/version") 0 [Byte.x68; Byte.x69] _
              (negotiate_request no_auth (str "nb-1") (str "version") 0
                 (str "src-7")) _).
    + vm_compute. reflexivity.
    + rewrite Hev. apply list_elem_of_further, list_elem_of_here.
  - refine (proj1 (add_announces_what_it_sends ascii_runtime procfs_world
              no_auth (str "nb-1") (str "/proc/version") 0
              [Byte.x68; Byte.x69] _
              (HttpPost (str "https://upload.notebooklm.google.com/session/1")
                 (upload_headers no_auth)
                 (Stream (file_stream [Byte.x68; Byte.x69])) 300) _)).
    + vm_compute. reflexivity.
    + rewrite Hev. apply list_elem_of_further, list_elem_of_further,
        list_elem_of_here.
Defined.

(** ** The order of the checks in [fetch_tokens] *)

(** [fetch_tokens] makes one request and checks, in this order: the status
    of the response, the final URL, the CSRF token, the session
    identifier.  So a response with another status than success ends it
    with the HTTP status error whatever the URL and the page; a final URL
    that contains accounts.google.com anywhere, be it in a query parameter,
    ends it with the authentication-expired error even when the page has
    both tokens; and a page without the CSRF token ends it with the error
    of the CSRF extractor whether or not the session identifier is there. *)
Theorem fetch_tokens_check_order (w : world) (cookies : dict pystr pystr)
    (r : response) :
  http w [] (landing_request cookies) = HttpResponse r ->
  events (fetch_tokens w cookies) = [landing_request cookies] /\
  (is_success r = false ->
   outcome (fetch_tokens w cookies)
     = Raise (HTTPError (HTTPStatusError (status_code r)))) /\
  (is_success r = true -> occurs_in login_domain (response_url r) ->
   outcome (fetch_tokens w cookies)
     = Raise (ValueError (AuthenticationExpiredRedirectedTo (response_url r)))) /\
  (is_success r = true -> ~ occurs_in login_domain (response_url r) ->
   forall e,
     extract_csrf_from_html (response_text r) (response_url r) = Raise e ->
     outcome (fetch_tokens w cookies) = Raise e) /\
  (is_success r = true -> ~ occurs_in login_domain (response_url r) ->
   forall csrf,
     extract_csrf_from_html (response_text r) (response_url r) = Return csrf ->
     outcome (fetch_tokens w cookies) =
       match extract_session_id_from_html (response_text r) (response_url r) with
       | Return sid => Return (csrf, sid)
       | Raise e => Raise e
       end).
Proof.
  intros Hget. destruct (fetch_tokens_cases w cookies) as [Hev Hout].
  rewrite Hget in Hout. split; [exact Hev|].
  split; [intros Hok; rewrite Hok in Hout; exact Hout|].
  split.
  { intros Hok Hurl. apply str_contains_occurs in Hurl.
    rewrite Hok, Hurl in Hout. exact Hout. }
  split.
  - intros Hok Hurl e He. apply str_contains_not_occurs in Hurl.
    rewrite Hok, Hurl, He in Hout. exact Hout.
  - intros Hok Hurl csrf Hc. apply str_contains_not_occurs in Hurl.
    rewrite Hok, Hurl, Hc in Hout.
    destruct (extract_session_id_from_html _ _); exact Hout.
Qed.

(** [fetch_tokens_check_order] at a landing page with both tokens whose
    final URL names the login domain in its query. *)
Lemma fetch_tokens_check_order_witness :
  let r := {| status_code := 200;
              response_url :=
                str "https://notebooklm.google.com/?continue=accounts.google.com";
              response_headers := [];
              response_text :=
                quoted (str "SNlM0e") ++ str ":" ++ quoted (str "TOKEN1")
                ++ quoted (str "FdrFJe") ++ str ":" ++ quoted (str "TOKEN2") |} in
  let w := {| home := []; fs := fun _ => Missing;
              loads_storage_state := fun _ => inl JSONDecodeError;
              rpc := fun _ _ => RpcRaises [];
              http := fun _ _ => HttpResponse r |} in
  extract_csrf_from_html (response_text r) (response_url r)
    = Return (str "TOKEN1") /\
  outcome (fetch_tokens w [(str "SID", str "xyz")])
    = Raise (ValueError (AuthenticationExpiredRedirectedTo (response_url r))).
Proof.
  intros r w. split; [vm_compute; reflexivity|].
  refine (proj1 (proj2 (proj2
    (fetch_tokens_check_order w [(str "SID", str "xyz")] r eq_refl))) _ _).
  - reflexivity.
  - apply str_contains_occurs. vm_compute. reflexivity.
Defined.

(** ** The cookie jar *)

Section DictItems.
Context {K V : Type} `{EqDecision K}.

Lemma elem_of_dict_set (d : dict K V) (k0 : K) (v0 : V) (k : K) (v : V) :
  (k, v) ∈ dict_set d k0 v0 -> (k, v) = (k0, v0) \/ (k, v) ∈ d.
Proof.
  induction d as [|[k1 v1] d IH]; simpl.
  - intros H%list_elem_of_singleton. left. exact H.
  - destruct (decide (k1 = k0)) as [->|Hne]; rewrite !elem_of_cons.
    + intros [H | H]; [left; exact H | right; right; exact H].
    + intros [H | H]; [right; left; exact H|].
      destruct (IH H) as [Heq | Hin]; [left; exact Heq | right; right; exact Hin].
Qed.

Lemma elem_of_dict_update (d : dict K V) (items : list (K * V)) (k : K) (v : V) :
  (k, v) ∈ dict_update d items -> (k, v) ∈ d \/ (k, v) ∈ items.
Proof.
  revert d. induction items as [|[k0 v0] items IH]; intros d; [left; assumption|].
  unfold dict_update in *. cbn [foldl fst snd]. intros H.
  destruct (IH _ H) as [Hd | Hi].
  - apply elem_of_dict_set in Hd as [Heq | Hd]; [|left; exact Hd].
    right. rewrite Heq. apply list_elem_of_here.
  - right. apply list_elem_of_further, Hi.
Qed.
End DictItems.

(** Every cookie in the jar [load_httpx_cookies] returns comes from an
    entry of the storage file, is on an allowed domain and has a name and a
    value that are not empty; no domain and name occur twice; and [SID] is
    in the jar on some domain. *)
Theorem load_httpx_cookies_jar (st : storage_state) (jar : cookie_jar) :
  load_httpx_cookies_from st = Return jar ->
  (forall d n v, ((d, n), v) ∈ jar ->
     _is_allowed_cookie_domain d = true /\ n <> [] /\ v <> [] /\
     exists c, c ∈ cookie_list st /\
               domain_of c = d /\ name_of c = n /\ value_of c = v) /\
  NoDup (dict_keys jar) /\
  (exists d, (d, str "SID") ∈ dict_keys jar).
Proof.
  intros Hret. rewrite load_httpx_cookies_from_cases in Hret.
  destruct (str_mem _ _) eqn:Hsid; [|discriminate Hret]. injection Hret as <-.
  rewrite load_loop_items in Hsid |- *. cbn [fst snd] in Hsid |- *.
  split; [|split].
  - intros d n v Hin.
    apply elem_of_dict_update in Hin as [Hin | Hin]; [inversion Hin|].
    apply elem_of_download_items in Hin as (c & Hc & Hk & <- & <- & <-).
    unfold download_keeps in Hk.
    apply andb_true_iff in Hk as [[Hd Hn]%andb_true_iff Hv].
    apply str_truthy_nonempty in Hn, Hv.
    split; [exact Hd|]. split; [exact Hn|]. split; [exact Hv|].
    exists c. auto.
  - rewrite dict_keys_update_order.
    apply first_occurrences_step_NoDup, NoDup_nil_2.
  - apply str_mem_elem_of in Hsid. rewrite app_nil_r in Hsid.
    apply list_elem_of_In, in_rev, list_elem_of_In, list_elem_of_fmap in Hsid
      as (c & Hname & Hc).
    exists (domain_of c).
    apply dict_get_keys. rewrite dict_get_update.
    assert (Hsome : is_Some (last_value (download_items (cookie_list st))
                               (domain_of c, str "SID"))).
    { apply last_value_is_Some. exists (value_of c).
      apply elem_of_download_items. exists c.
      apply list_elem_of_filter in Hc as [Hk Hc].
      split; [exact Hc|]. split; [apply Is_true_true, Hk|]. auto. }
    destruct Hsome as [v ->]. eexists. reflexivity.
Qed.

(** [load_httpx_cookies_jar] at a storage file with a session cookie on a
    content host. *)
Lemma load_httpx_cookies_jar_witness :
  exists d, (d, str "SID") ∈ dict_keys [((str "lh3.google.com", str "SID"), str "xyz")].
Proof.
  refine (proj2 (proj2 (load_httpx_cookies_jar
    {| storage_cookies := Some [mk_cookie "lh3.google.com" "SID" "xyz"] |}
    [((str "lh3.google.com", str "SID"), str "xyz")] _))).
  vm_compute. reflexivity.
Defined.

(** ** What [add] sends for a URL *)

(** For an input that the file test finds to be no regular file, [add]
    sends the input string as it was given: white space around a video URL
    is ignored when the URL is recognised, but it is part of the URL in the
    remote call. *)
Theorem add_sends_source_unchanged (rt : runtime) (w : world)
    (auth : AuthTokens) (notebook_id ws url ws' video_id : pystr) :
  forallb isspace ws = true -> forallb isspace ws' = true ->
  _parse_youtube_url rt url = Return (Some video_id) ->
  is_regular_file w (ws ++ url ++ ws') = Return false ->
  events (add rt w auth notebook_id (ws ++ url ++ ws'))
    = [add_youtube_request notebook_id (ws ++ url ++ ws')] /\
  exists rest_params path allow_null,
    add_youtube_request notebook_id (ws ++ url ++ ws') =
    RpcCall ADD_SOURCE
      (PList (PList [PList [PNone; PNone; PNone; PNone; PNone; PNone; PNone;
                            PList [PStr (ws ++ url ++ ws')]; PNone; PNone;
                            PInt 1]] :: rest_params))
      path allow_null.
Proof.
  intros Hws Hws' Hparse Hfile.
  split; [|eexists _, _, _; reflexivity].
  unfold events. rewrite (add_head _ _ _ _ _ _ Hfile). unfold bind, lift.
  assert (Hid : _parse_youtube_url rt (ws ++ url ++ ws') = Return (Some video_id)).
  { unfold _parse_youtube_url, _parse_youtube_url_try in *.
    rewrite (str_strip_surrounded _ _ _ Hws Hws'). exact Hparse. }
  rewrite Hid.
  destruct (_parse_youtube_url_spec rt (ws ++ url ++ ws')) as (r & Hr & Hspec).
  rewrite Hid in Hr. injection Hr as <-.
  destruct (proj1 (Hspec video_id) eq_refl) as (_ & _ & _ & _ & Hne & _).
  apply str_truthy_nonempty in Hne. cbn [default from_option id]. 
  unfold default. cbn. rewrite Hne.
  unfold _add_youtube_source, rpc_call.
  fold (add_youtube_request notebook_id (ws ++ url ++ ws')).
  destruct (rpc w [] _); reflexivity.
Qed.

(** [add_sends_source_unchanged] at a short link between two spaces and a
    line feed, in a world without files. *)
Lemma add_sends_source_unchanged_witness :
  events (add ascii_runtime offline_world no_auth (str "nb-1")
            (str "  " ++ str "https://youtu.be/abc123" ++ [10]))
  = [add_youtube_request (str "nb-1")
       (str "  " ++ str "https://youtu.be/abc123" ++ [10])].
Proof.
  refine (proj1 (add_sends_source_unchanged ascii_runtime offline_world no_auth
            (str "nb-1") (str "  ") (str "https://youtu.be/abc123") [10]
            (str "abc123") _ _ _ _)); vm_compute; reflexivity.
Defined.
